(** * The library seeding script [backend/seed.cjs]

    The script declares four mongoose schemas (Book, BookCategory,
    BookTransaction, User), compiles them into models and then runs
    [seedDatabase]: connect, drop the four collections, insert the sample
    categories, users, books and transactions, close the connection.

    The embedding follows the script top to bottom.  JavaScript values are
    an inductive type, documents and plain objects are finite maps from
    field names to values, the database is a finite map from collection
    names to lists of documents, and the asynchronous code is written in a
    state-and-exception monad.  What the script takes from outside (the
    connection string, whether the server accepts the connection, which
    drops fail and how, bcrypt) is gathered in the record [Env].

    Of mongoose and of the server the embedding keeps what the script relies
    on: strict schemas with defaults, the [required] validation of every
    document before anything is written, ordered bulk writes, the index on
    [_id] that every collection has, the unique index of a [unique: true]
    path where the server has it, and the error with code 26 for the drop of
    a collection that does not exist.  Mongoose builds the indexes of a model
    in the background and the script waits for none of them, and a drop
    removes a collection with its indexes: whether a unique index is there
    when a write arrives is for the environment to say.  Values are taken in
    the types the schemas declare, as the script gives them; the conversions
    mongoose attempts on values of another type are not part of the
    embedding.  ObjectIds are numbered in the order they are drawn;
    timestamps and version keys are left out. *)

From Stdlib Require Import ZArith.
From stdpp Require Import gmap strings list fin_maps.

Local Open Scope string_scope.

(** ** JavaScript values *)

(** Numbers are the integers the script uses; an ObjectId is the index of its
    allocation. *)
#[warnings="-register-all"]
Inductive value : Type :=
  | VUndef
  | VStr (s : string)
  | VNum (n : Z)
  | VBool (b : bool)
  | VId (n : nat)
  | VArr (l : list value).

Definition value_eq_dec : forall a b : value, {a = b} + {a <> b}.
Proof.
  fix IH 1.
  intros a b; decide equality;
    first [ apply String.string_dec | apply Z.eq_dec | apply Bool.bool_dec
          | apply Nat.eq_dec | apply (List.list_eq_dec IH) ].
Defined.

#[global] Instance value_eq_decision : EqDecision value := value_eq_dec.

(** A plain object and a stored document: field name to value. *)
Abbreviation obj := (gmap string value).

(** [o[k]]: the value under a key of [o], and [undefined] for a key that [o]
    lacks.  A key that every object inherits (one of [Object_prototype]
    below) is read nowhere in the script. *)
Definition get (o : obj) (k : string) : value := default VUndef (o !! k).

(** A key that holds [undefined] counts as absent wherever mongoose reads an
    object. *)
Definition field (o : obj) (k : string) : option value :=
  match o !! k with
  | Some VUndef => None
  | r => r
  end.

(** The property name an object is indexed with, [acc[v] = ...]: the paths used
    as keys are String paths, so a present value is a string. *)
Definition key_of (v : value) : string :=
  match v with
  | VStr s => s
  | _ => "undefined"
  end.

(** ** Schemas *)

Inductive SchemaType : Type :=
  | TString
  | TNumber
  | TBoolean
  | TObjectId
  | TArrayOf (t : SchemaType).

(** The options the script gives to a path. *)
Record PathOptions : Type := {
  ptype : SchemaType;
  required : bool;
  pdefault : option value;
  unique : bool;
  index : bool;
  ref : option string;
  pmin : option Z;
  pmax : option Z
}.

Definition path (t : SchemaType) : PathOptions :=
  {| ptype := t; required := false; pdefault := None; unique := false;
     index := false; ref := None; pmin := None; pmax := None |}.

Definition req (p : PathOptions) : PathOptions :=
  {| ptype := ptype p; required := true; pdefault := pdefault p;
     unique := unique p; index := index p; ref := ref p;
     pmin := pmin p; pmax := pmax p |}.

Definition dflt (v : value) (p : PathOptions) : PathOptions :=
  {| ptype := ptype p; required := required p; pdefault := Some v;
     unique := unique p; index := index p; ref := ref p;
     pmin := pmin p; pmax := pmax p |}.

Definition uniq (p : PathOptions) : PathOptions :=
  {| ptype := ptype p; required := required p; pdefault := pdefault p;
     unique := true; index := index p; ref := ref p;
     pmin := pmin p; pmax := pmax p |}.

Definition idx (p : PathOptions) : PathOptions :=
  {| ptype := ptype p; required := required p; pdefault := pdefault p;
     unique := unique p; index := true; ref := ref p;
     pmin := pmin p; pmax := pmax p |}.

Definition refers (m : string) (p : PathOptions) : PathOptions :=
  {| ptype := ptype p; required := required p; pdefault := pdefault p;
     unique := unique p; index := index p; ref := Some m;
     pmin := pmin p; pmax := pmax p |}.

Definition minv (lo : Z) (p : PathOptions) : PathOptions :=
  {| ptype := ptype p; required := required p; pdefault := pdefault p;
     unique := unique p; index := index p; ref := ref p;
     pmin := Some lo; pmax := pmax p |}.

Definition maxv (hi : Z) (p : PathOptions) : PathOptions :=
  {| ptype := ptype p; required := required p; pdefault := pdefault p;
     unique := unique p; index := index p; ref := ref p;
     pmin := pmin p; pmax := Some hi |}.

Definition Schema : Type := list (string * PathOptions).

(** [timestamps: true] adds createdAt and updatedAt, which hold the wall clock
    and are left out of the documents below. *)

Definition BookSchema : Schema :=
  [ ("bookName", idx (req (path TString)));
    ("alternateTitle", dflt (VStr "") (path TString));
    ("author", req (path TString));
    ("language", dflt (VStr "") (path TString));
    ("publisher", dflt (VStr "") (path TString));
    ("bookCountAvailable", req (path TNumber));
    ("bookStatus", dflt (VStr "Available") (path TString));
    ("categories", refers "BookCategory" (path (TArrayOf TObjectId)));
    ("transactions", refers "BookTransaction" (path (TArrayOf TObjectId))) ].

Definition BookCategorySchema : Schema :=
  [ ("categoryName", idx (uniq (path TString)));
    ("books", refers "Book" (path (TArrayOf TObjectId))) ].

Definition BookTransactionSchema : Schema :=
  [ ("bookId", req (refers "Book" (path TObjectId)));
    ("borrowerId", req (refers "User" (path TObjectId)));
    ("bookName", req (path TString));
    ("borrowerName", req (path TString));
    ("transactionType", req (path TString));
    ("fromDate", req (path TString));
    ("toDate", req (path TString));
    ("returnDate", path TString);
    ("transactionStatus", dflt (VStr "Active") (path TString)) ].

Definition UserSchema : Schema :=
  [ ("userType", idx (req (path TString)));
    ("userFullName", idx (uniq (req (path TString))));
    ("admissionId", maxv 15 (minv 3 (path TString)));
    ("employeeId", maxv 15 (minv 3 (path TString)));
    ("age", path TNumber);
    ("gender", path TString);
    ("dob", path TString);
    ("address", dflt (VStr "") (path TString));
    ("mobileNumber", req (path TString));
    ("photo", dflt (VStr "") (path TString));
    ("email", idx (uniq (maxv 50 (req (path TString)))));
    ("password", minv 6 (req (path TString)));
    ("points", dflt (VNum 0) (path TNumber));
    ("activeTransactions", refers "BookTransaction" (path (TArrayOf TObjectId)));
    ("prevTransactions", refers "BookTransaction" (path (TArrayOf TObjectId)));
    ("isAdmin", dflt (VBool false) (path TBoolean)) ].

(** ** Models *)

(** [mongoose.model(name, schema)]: the collection of a model is its name in
    lower case and in the plural, the four names the script drops. *)
Record Model : Type := {
  modelName : string;
  collection : string;
  schema : Schema
}.

Definition Book : Model :=
  {| modelName := "Book"; collection := "books"; schema := BookSchema |}.
Definition BookCategory : Model :=
  {| modelName := "BookCategory"; collection := "bookcategories";
     schema := BookCategorySchema |}.
Definition BookTransaction : Model :=
  {| modelName := "BookTransaction"; collection := "booktransactions";
     schema := BookTransactionSchema |}.
Definition User : Model :=
  {| modelName := "User"; collection := "users"; schema := UserSchema |}.

(** ** Building and validating a document *)

(** The value a path starts with when the object gives none: its [default], and
    the empty array for an array path. *)
Definition initial (p : PathOptions) : option value :=
  match pdefault p with
  | Some v => Some v
  | None => match ptype p with
            | TArrayOf _ => Some (VArr [])
            | _ => None
            end
  end.

(** Schemas are strict: only the declared paths of the object are kept. *)
Definition build (sch : Schema) (o : obj) : obj :=
  foldr (fun kp d =>
           match (match field o kp.1 with
                  | Some v => Some v
                  | None => initial kp.2
                  end) with
           | Some v => <[kp.1 := v]> d
           | None => d
           end) ∅ sch.

(** A value of the type the path declares.  Mongoose goes on to convert some
    values of another type (the number 5 to the string "5") and fails on the
    rest; the script passes none.  Below, what a call does with arbitrary
    records is stated either for records whose documents pass [valid] as
    they are, for which nothing is converted, or as what the call leaves
    untouched, which no conversion changes. *)
Fixpoint has_type (t : SchemaType) (v : value) : bool :=
  match t, v with
  | TString, VStr _ => true
  | TNumber, VNum _ => true
  | TBoolean, VBool _ => true
  | TObjectId, VId _ => true
  | TArrayOf t', VArr l => forallb (has_type t') l
  | _, _ => false
  end.

(** [min] and [max] are validators of Number paths only; on the String paths
    where the script writes them they check nothing. *)
Definition in_range (p : PathOptions) (v : value) : bool :=
  match ptype p, v with
  | TNumber, VNum n =>
      match pmin p with Some lo => (lo <=? n)%Z | None => true end
      && match pmax p with Some hi => (n <=? hi)%Z | None => true end
  | _, _ => true
  end.

(** [required] rejects an absent value and, on a String path, the empty
    string. *)
Definition path_ok (d : obj) (kp : string * PathOptions) : bool :=
  match d !! kp.1 with
  | None => negb (required kp.2)
  | Some v =>
      has_type (ptype kp.2) v
      && negb (required kp.2 && bool_decide (v = VStr ""))
      && in_range kp.2 v
  end.

(** Beside the declared paths every schema has the path [_id], of type
    ObjectId, that mongoose adds to it. *)
Definition valid (sch : Schema) (d : obj) : bool :=
  forallb (path_ok d) sch
  && match d !! "_id" with
     | Some i => has_type TObjectId i
     | None => true
     end.

(** ** Errors, the environment and the state *)

(** A thrown error: its name and its [code] property, when it has one. *)
Record Error : Type := {
  ename : string;
  ecode : option Z
}.

Definition ValidationError : Error :=
  {| ename := "ValidationError"; ecode := None |}.
(** The server's answer to a write that repeats a key of a unique index. *)
Definition DuplicateKey : Error :=
  {| ename := "MongoBulkWriteError"; ecode := Some 11000%Z |}.
(** The server's answer to dropping a collection that does not exist. *)
Definition NamespaceNotFound : Error :=
  {| ename := "MongoError"; ecode := Some 26%Z |}.
Definition BcryptArguments : Error :=
  {| ename := "Error"; ecode := None |}.

(** What the script takes from outside: the connection string read from the
    process environment, whether connecting fails, which drops the server
    refuses and with what error, whether closing the connection fails,
    whether the server has the unique index of a path of a collection when
    a write to the collection arrives, and the two bcrypt functions (the
    second argument of [bcrypt_genSalt] numbers the call, one random salt
    each). *)
Record Env : Type := {
  MONGO_URL : string;
  connect_fault : option Error;
  drop_fault : string -> option Error;
  close_fault : option Error;
  unique_index : string -> string -> bool;
  bcrypt_genSalt : Z -> nat -> string;
  bcrypt_hash : string -> string -> string
}.

Inductive Event : Type :=
  | Console (msg : string)
  | ConsoleError (msg : string) (e : Error)
  | Connect (url : string)
  | DropCollection (name : string)
  | InsertMany (coll : string) (n : nat)
  | GenSalt (rounds : Z)
  | Close.

(** The database, the next ObjectId, the number of salts drawn so far and what
    the run has done, oldest first. *)
Record State : Type := {
  db : gmap string (list obj);
  next_id : nat;
  salts : nat;
  trace : list Event
}.

Definition set_db (f : gmap string (list obj) -> gmap string (list obj))
    (s : State) : State :=
  {| db := f (db s); next_id := next_id s; salts := salts s;
     trace := trace s |}.

Definition add_event (e : Event) (s : State) : State :=
  {| db := db s; next_id := next_id s; salts := salts s;
     trace := (trace s ++ [e])%list |}.

(** ** Awaited computations: state and exceptions *)

Inductive Outcome (A : Type) : Type :=
  | Return (a : A)
  | Throw (e : Error).
Arguments Return {A} a.
Arguments Throw {A} e.

Definition Async (A : Type) : Type := State -> Outcome A * State.

#[global] Instance async_ret : MRet Async :=
  fun A a s => (Return a, s).

#[global] Instance async_bind : MBind Async :=
  fun A B f m s =>
    match m s with
    | (Return a, s') => f a s'
    | (Throw e, s') => (Throw e, s')
    end.

Definition throw {A} (e : Error) : Async A := fun s => (Throw e, s).

Definition emit (e : Event) : Async unit := fun s => (Return tt, add_event e s).

(** [try { body } catch (e) { handler }], also [promise.catch(handler)]. *)
Definition try_catch {A} (body : Async A) (handler : Error -> Async A) : Async A :=
  fun s =>
    match body s with
    | (Return a, s') => (Return a, s')
    | (Throw e, s') => handler e s'
    end.

(** [try { body } finally { fin }]: [fin] runs either way, and the outcome of
    [body] stands unless [fin] throws. *)
Definition finally {A} (body : Async A) (fin : Async unit) : Async A :=
  fun s =>
    match body s with
    | (r, s') => match fin s' with
                 | (Return _, s'') => (r, s'')
                 | (Throw e, s'') => (Throw e, s'')
                 end
    end.

Definition console_log (msg : string) : Async unit := emit (Console msg).
Definition console_error (msg : string) (e : Error) : Async unit :=
  emit (ConsoleError msg e).

(** [e.code != n] *)
Definition code_differs (e : Error) (n : Z) : bool :=
  match ecode e with
  | Some c => negb (c =? n)%Z
  | None => true
  end.

(** ** The mongoose and driver calls the script makes *)

Definition fresh_id : Async nat :=
  fun s => (Return (next_id s),
            {| db := db s; next_id := S (next_id s); salts := salts s;
               trace := trace s |}).

(** [new Model(o)]: the declared paths of [o], the defaults, and an [_id],
    the object's own when it has one. *)
Definition new_document (m : Model) (o : obj) : Async obj :=
  match field o "_id" with
  | Some i => mret (<["_id" := i]> (build (schema m) o))
  | None => n ← fresh_id; mret (<["_id" := VId n]> (build (schema m) o))
  end.

Definition unique_paths (sch : Schema) : list string :=
  (List.filter (fun kp => unique kp.2) sch).*1.

(** Two documents have the same key under a unique path of which the server
    has the index ([indexed]); a missing value is the key null. *)
Definition key_clash (indexed : string -> bool) (sch : Schema)
    (stored : list obj) (d : obj) : bool :=
  existsb (fun k => existsb (fun d' => bool_decide (d' !! k = d !! k)) stored
                    && indexed k)
          (unique_paths sch).

(** Two documents have the same [_id]. *)
Definition id_clash (stored : list obj) (d : obj) : bool :=
  existsb (fun d' => bool_decide (d' !! "_id" = d !! "_id")) stored.

(** What the server refuses: a repeated [_id] always, the index on [_id]
    being part of every collection, and a repeated key under a unique path
    when it has the unique index of that path. *)
Definition conflicts (indexed : string -> bool) (sch : Schema)
    (stored : list obj) (d : obj) : bool :=
  id_clash stored d || key_clash indexed sch stored d.

Definition documents (name : string) (s : State) : list obj :=
  default [] (db s !! name).

(** The ordered bulk write: documents go in one by one and the first
    duplicate key stops it, the earlier ones staying written. *)
Fixpoint write_ordered (env : Env) (m : Model) (docs : list obj) : Async unit :=
  match docs with
  | [] => mret tt
  | d :: rest =>
      fun s =>
        if conflicts (unique_index env (collection m)) (schema m)
             (documents (collection m) s) d
        then (Throw DuplicateKey, s)
        else write_ordered env m rest
               (set_db <[collection m := (documents (collection m) s ++ [d])%list]> s)
  end.

(** [Model.insertMany(objs)]: every document is validated before anything is
    sent, and one invalid document stops the whole call. *)
Definition insertMany (env : Env) (m : Model) (objs : list obj) :
    Async (list obj) :=
  emit (InsertMany (collection m) (length objs));;
  docs ← mapM (new_document m) objs;
  if forallb (valid (schema m)) docs
  then write_ordered env m docs;; mret docs
  else throw ValidationError.

Section Script.

Context (env : Env).

Definition connect : Async unit :=
  emit (Connect (MONGO_URL env));;
  match connect_fault env with
  | Some e => throw e
  | None => mret tt
  end.

(** The server drops a collection that exists and answers code 26 for one that
    does not. *)
Definition server_drop (name : string) : Async unit :=
  fun s => match db s !! name with
           | None => (Throw NamespaceNotFound, s)
           | Some _ => (Return tt, set_db (delete name) s)
           end.

(** [mongoose.connection.db.dropCollection(name)] *)
Definition dropCollection (name : string) : Async unit :=
  emit (DropCollection name);;
  match drop_fault env name with
  | Some e => throw e
  | None => server_drop name
  end.

(** [mongoose.connection.close()] *)
Definition close : Async unit :=
  emit Close;;
  match close_fault env with
  | Some e => throw e
  | None => mret tt
  end.

Definition next_salt (rounds : Z) : Async string :=
  fun s => (Return (bcrypt_genSalt env rounds (salts s)),
            {| db := db s; next_id := next_id s; salts := S (salts s);
               trace := trace s |}).

Definition genSalt (rounds : Z) : Async string :=
  emit (GenSalt rounds);; next_salt rounds.

Definition hashPassword (password : value) : Async value :=
  salt ← genSalt 10;
  match password with
  | VStr p => mret (VStr (bcrypt_hash env p salt))
  | _ => throw BcryptArguments
  end.

(** An object literal. *)
Definition object (l : list (string * value)) : obj := list_to_map l.

(** [docs.reduce((acc, d) => { acc[d.k] = d._id; return acc; }, {})]: the
    keys the map has of its own.  The accumulator starts as [{}] and so
    inherits the names of [Object_prototype] below, which the script does
    not read. *)
Definition index_by (k : string) (docs : list obj) : obj :=
  foldl (fun acc d => <[key_of (get d k) := get d "_id"]> acc) ∅ docs.

(** The handler on every drop: [e => { if (e.code != 26) throw e; }] *)
Definition unless_missing (e : Error) : Async unit :=
  if code_differs e 26 then throw e else mret tt.

Definition categoriesData : list obj :=
  [ object [("categoryName", VStr "Fiction")];
    object [("categoryName", VStr "Science Fiction")];
    object [("categoryName", VStr "Mystery")];
    object [("categoryName", VStr "Thriller")];
    object [("categoryName", VStr "Non-Fiction")];
    object [("categoryName", VStr "Biography")];
    object [("categoryName", VStr "History")];
    object [("categoryName", VStr "Technology")] ].

Definition usersData : list obj :=
  [ object [("userType", VStr "Member"); ("userFullName", VStr "John Doe");
            ("email", VStr "john.doe@example.com");
            ("password", VStr "password123");
            ("mobileNumber", VStr "1234567890"); ("admissionId", VStr "JD123")];
    object [("userType", VStr "Member"); ("userFullName", VStr "Jane Smith");
            ("email", VStr "jane.smith@example.com");
            ("password", VStr "password456");
            ("mobileNumber", VStr "9876543210"); ("admissionId", VStr "JS456")];
    object [("userType", VStr "Admin"); ("userFullName", VStr "Admin User");
            ("email", VStr "admin@example.com");
            ("password", VStr "adminPassword");
            ("mobileNumber", VStr "1122334455"); ("isAdmin", VBool true);
            ("employeeId", VStr "AD001")] ].

(** The body of the loop over [usersData]: hash, then
    [new User({...userData, password: hashedPassword})]. *)
Definition newUser (userData : obj) : Async obj :=
  hashedPassword ← hashPassword (get userData "password");
  new_document User (<["password" := hashedPassword]> userData).

Definition booksData (categoryMap : obj) : list obj :=
  [ object [("bookName", VStr "The Lord of the Rings");
            ("author", VStr "J.R.R. Tolkien");
            ("bookCountAvailable", VNum 5);
            ("categories", VArr [get categoryMap "Fiction"])];
    object [("bookName", VStr "Dune");
            ("author", VStr "Frank Herbert");
            ("bookCountAvailable", VNum 3);
            ("categories", VArr [get categoryMap "Science Fiction"])];
    object [("bookName", VStr "The Girl with the Dragon Tattoo");
            ("author", VStr "Stieg Larsson");
            ("bookCountAvailable", VNum 2);
            ("categories", VArr [get categoryMap "Mystery";
                                 get categoryMap "Thriller"])];
    object [("bookName", VStr "Sapiens: A Brief History of Humankind");
            ("author", VStr "Yuval Noah Harari");
            ("bookCountAvailable", VNum 4);
            ("categories", VArr [get categoryMap "Non-Fiction";
                                 get categoryMap "History"])];
    object [("bookName", VStr "Steve Jobs");
            ("author", VStr "Walter Isaacson");
            ("bookCountAvailable", VNum 1);
            ("categories", VArr [get categoryMap "Biography";
                                 get categoryMap "Technology"])] ].

Definition transactionsData (bookMap userMap : obj) : list obj :=
  [ object [("bookId", get bookMap "The Lord of the Rings");
            ("borrowerId", get userMap "John Doe");
            ("bookName", VStr "The Lord of the Rings");
            ("borrowerName", VStr "John Doe");
            ("transactionType", VStr "Issue");
            ("fromDate", VStr "2024-01-15");
            ("toDate", VStr "2024-02-15")];
    object [("bookId", get bookMap "Dune");
            ("borrowerId", get userMap "Jane Smith");
            ("bookName", VStr "Dune");
            ("borrowerName", VStr "Jane Smith");
            ("transactionType", VStr "Reservation");
            ("fromDate", VStr "2024-02-20");
            ("toDate", VStr "2024-03-20")];
    object [("bookId", get bookMap "Sapiens: A Brief History of Humankind");
            ("borrowerId", get userMap "John Doe");
            ("bookName", VStr "Sapiens: A Brief History of Humankind");
            ("borrowerName", VStr "John Doe");
            ("transactionType", VStr "Issue");
            ("fromDate", VStr "2023-11-10");
            ("toDate", VStr "2023-12-10");
            ("returnDate", VStr "2023-12-05");
            ("transactionStatus", VStr "Completed")] ].

(** The [try] block of [seedDatabase], stage by stage as its log lines
    announce them. *)
Definition connecting : Async unit :=
  console_log "Connecting to database...";;
  console_log ("MONGO_URL: " ++ MONGO_URL env);;
  connect;;
  console_log "Connected to MongoDB".

Definition dropping : Async unit :=
  console_log "Dropping existing collections...";;
  try_catch (dropCollection "books") unless_missing;;
  try_catch (dropCollection "bookcategories") unless_missing;;
  try_catch (dropCollection "booktransactions") unless_missing;;
  try_catch (dropCollection "users") unless_missing;;
  console_log "Existing collections dropped.".

(** Returns [categoryMap]. *)
Definition seedCategories : Async obj :=
  console_log "Seeding categories...";;
  categories ← insertMany env BookCategory categoriesData;
  console_log "Categories seeded.";;
  mret (index_by "categoryName" categories).

(** Returns [userMap]. *)
Definition seedUsers : Async obj :=
  console_log "Seeding users...";;
  users ← mapM newUser usersData;
  insertMany env User users;;
  console_log "Users seeded.";;
  mret (index_by "userFullName" users).

(** Returns [bookMap]. *)
Definition seedBooks (categoryMap : obj) : Async obj :=
  console_log "Seeding books...";;
  books ← insertMany env Book (booksData categoryMap);
  console_log "Books seeded.";;
  mret (index_by "bookName" books).

Definition seedTransactions (bookMap userMap : obj) : Async unit :=
  console_log "Seeding transactions...";;
  insertMany env BookTransaction (transactionsData bookMap userMap);;
  console_log "Transactions seeded.".

Definition populating : Async unit :=
  categoryMap ← seedCategories;
  userMap ← seedUsers;
  bookMap ← seedBooks categoryMap;
  seedTransactions bookMap userMap;;
  console_log "Database seeding complete.".

Definition seeding : Async unit :=
  connecting;; dropping;; populating.

Definition seedDatabase : Async unit :=
  finally
    (try_catch seeding (console_error "Error seeding database:"))
    (close;; console_log "Database connection closed.").

End Script.

(** A server with nothing wrong, its unique indexes built, and a toy bcrypt,
    for running the script: the salt carries the number of its call, the hash the salt and the password
    with every character moved one up. *)
Fixpoint shifted (p : string) : string :=
  match p with
  | EmptyString => EmptyString
  | String c rest =>
      String (Ascii.ascii_of_nat (S (Ascii.nat_of_ascii c))) (shifted rest)
  end.

Definition plain_env : Env :=
  {| MONGO_URL := "mongodb://localhost/library";
     connect_fault := None;
     drop_fault := fun _ => None;
     close_fault := None;
     unique_index := fun _ _ => true;
     bcrypt_genSalt := fun rounds k =>
       "salt" ++ String (Ascii.ascii_of_nat (48 + k)) EmptyString;
     bcrypt_hash := fun p salt => "$" ++ salt ++ "$" ++ shifted p |}.

Definition empty_state : State :=
  {| db := ∅; next_id := 0; salts := 0; trace := [] |}.

(** * What the claims are stated with *)

(** ** Observing a run *)

(** The state a call ends in, and the events it added. *)
Definition after {A} (m : Async A) (s : State) : State := (m s).2.

Definition events {A} (m : Async A) (s : State) : list Event :=
  drop (List.length (trace s)) (trace (after m s)).

(** A server that accepts the connection and refuses no drop, and a bcrypt
    whose hashes are not the empty string. *)
Definition well_behaved (env : Env) : Prop :=
  connect_fault env = None
  ∧ (∀ c, drop_fault env c = None)
  ∧ (∀ p salt, bcrypt_hash env p salt ≠ "").

(** The documents [insertMany] makes of plain objects when the next ObjectId
    is [n]. *)
Definition stamp (m : Model) (n : nat) (objs : list obj) : list obj :=
  imap (fun i o => <["_id" := VId (i + n)]> (build (schema m) o)) objs.

(** The four collections as the script fills them when the first ObjectId it
    draws is [n] and the first salt is number [k]. *)
Definition seeded_categories (n : nat) : list obj :=
  stamp BookCategory n categoriesData.

Definition seeded_users (env : Env) (n k : nat) : list obj :=
  stamp User (8 + n)
    (imap (fun i u =>
             <["password" :=
                 VStr (bcrypt_hash env (key_of (get u "password"))
                         (bcrypt_genSalt env 10 (i + k)))]> u)
          usersData).

Definition seeded_books (n : nat) : list obj :=
  stamp Book (11 + n)
    (booksData (index_by "categoryName" (seeded_categories n))).

Definition seeded_transactions (env : Env) (n k : nat) : list obj :=
  stamp BookTransaction (16 + n)
    (transactionsData (index_by "bookName" (seeded_books n))
                      (index_by "userFullName" (seeded_users env n k))).

Definition seeded_db (env : Env) (n k : nat) : gmap string (list obj) :=
  <["booktransactions" := seeded_transactions env n k]>
    (<["books" := seeded_books n]>
       (<["users" := seeded_users env n k]>
          (<["bookcategories" := seeded_categories n]> ∅))).

(** The database once the four drops have gone through. *)
Definition dropped (d : gmap string (list obj)) : gmap string (list obj) :=
  delete "users" (delete "booktransactions"
    (delete "bookcategories" (delete "books" d))).

Definition connect_events (env : Env) : list Event :=
  [ Console "Connecting to database...";
    Console ("MONGO_URL: " ++ MONGO_URL env);
    Connect (MONGO_URL env);
    Console "Connected to MongoDB" ].

Definition drop_events : list Event :=
  [ Console "Dropping existing collections...";
    DropCollection "books"; DropCollection "bookcategories";
    DropCollection "booktransactions"; DropCollection "users";
    Console "Existing collections dropped." ].

Definition populate_events : list Event :=
  [ Console "Seeding categories..."; InsertMany "bookcategories" 8;
    Console "Categories seeded.";
    Console "Seeding users..."; GenSalt 10; GenSalt 10; GenSalt 10;
    InsertMany "users" 3; Console "Users seeded.";
    Console "Seeding books..."; InsertMany "books" 5; Console "Books seeded.";
    Console "Seeding transactions..."; InsertMany "booktransactions" 3;
    Console "Transactions seeded."; Console "Database seeding complete." ].

(** The [finally] block: the last line is logged when closing has not
    failed. *)
Definition close_events (env : Env) : list Event :=
  Close :: match close_fault env with
           | None => [Console "Database connection closed."]
           | Some _ => []
           end.

(** How the promise of [seedDatabase] settles: an error of the [try] block
    ends in the [catch] block, an error of closing does not. *)
Definition settled (env : Env) : Outcome unit :=
  match close_fault env with
  | None => Return tt
  | Some e => Throw e
  end.

(** [embed r t s] is [s] with the collections of [r] added beside its own and
    the events [t] before its own.  A computation is [local] when it runs in
    the larger state as it does in the smaller one. *)
Definition embed (r : gmap string (list obj)) (t : list Event) (s : State) : State :=
  {| db := db s ∪ r; next_id := next_id s; salts := salts s;
     trace := (t ++ trace s)%list |}.

Definition local (r : gmap string (list obj)) (t : list Event) {A}
    (m : Async A) : Prop :=
  ∀ s, m (embed r t s) = ((m s).1, embed r t (m s).2).

(** A state from its four parts, and the state with an empty database and no
    event yet. *)
Definition mk (d : gmap string (list obj)) (n k : nat) (t : list Event) : State :=
  {| db := d; next_id := n; salts := k; trace := t |}.

Definition clean (n k : nat) : State := mk ∅ n k [].

(** The state after each stage, from an empty database in which the next
    ObjectId is [n] and the next salt is number [k]. *)
Definition after_categories (n k : nat) : State :=
  mk (<["bookcategories" := seeded_categories n]> ∅) (8 + n) k
     [Console "Seeding categories..."; InsertMany "bookcategories" 8;
      Console "Categories seeded."].

Definition after_users (env : Env) (n k : nat) : State :=
  mk (<["users" := seeded_users env n k]> (db (after_categories n k))) (11 + n) (3 + k)
     (trace (after_categories n k) ++
      [Console "Seeding users..."; GenSalt 10; GenSalt 10; GenSalt 10;
       InsertMany "users" 3; Console "Users seeded."]).

Definition after_books (env : Env) (n k : nat) : State :=
  mk (<["books" := seeded_books n]> (db (after_users env n k))) (16 + n) (3 + k)
     (trace (after_users env n k) ++
      [Console "Seeding books..."; InsertMany "books" 5; Console "Books seeded."]).

Definition after_transactions (env : Env) (n k : nat) : State :=
  mk (<["booktransactions" := seeded_transactions env n k]> (db (after_books env n k)))
     (19 + n) (3 + k)
     (trace (after_books env n k) ++
      [Console "Seeding transactions..."; InsertMany "booktransactions" 3;
       Console "Transactions seeded."]).

(** ** The claims' own notions *)

(** The bound as the specification states it: the record carries the number of
    copies available and a total, and the first lies between 0 and the
    second. *)
Definition within_total (b : obj) : Prop :=
  ∃ avail total : Z,
    b !! "bookCountAvailable" = Some (VNum avail)
    ∧ b !! "totalCopies" = Some (VNum total)
    ∧ (0 ≤ avail ≤ total)%Z.

(** Between one copy and five, the counts of the sample books. *)
Definition count_in_range (b : obj) : bool :=
  match b !! "bookCountAvailable" with
  | Some (VNum c) => (1 <=? c)%Z && (c <=? 5)%Z
  | _ => false
  end.

(** The state a run on the plain server ends in, from an empty database. *)
Definition plain_run : State := after (seedDatabase plain_env) empty_state.


(** The status as the specification derives it from the count. *)
Definition derived_status (b : obj) : value :=
  match b !! "bookCountAvailable" with
  | Some (VNum c) => if (0 <? c)%Z then VStr "Available" else VStr "Unavailable"
  | _ => VStr "Unavailable"
  end.

(** A book with no copy left, stored through the Book model. *)
Definition out_of_stock : obj :=
  object [("bookName", VStr "Dune"); ("author", VStr "Frank Herbert");
          ("bookCountAvailable", VNum 0)].

(** A database that holds that book and nothing else. *)
Definition shelf : State :=
  after (insertMany plain_env Book [out_of_stock]) empty_state.

(** The specification's description of the loader: no call writes to the
    transactions collection and the run leaves it empty. *)
Definition writes_no_transaction (evs : list Event) (s : State) : Prop :=
  (∀ n, InsertMany "booktransactions" n ∉ evs)
  ∧ documents "booktransactions" s = [].

(** [t] names the book [b] and the user [u] it refers to. *)
Definition snapshot_of (t b u : obj) : Prop :=
  is_Some (t !! "bookId") ∧ t !! "bookId" = b !! "_id"
  ∧ is_Some (t !! "borrowerId") ∧ t !! "borrowerId" = u !! "_id"
  ∧ is_Some (t !! "bookName") ∧ t !! "bookName" = b !! "bookName"
  ∧ is_Some (t !! "borrowerName") ∧ t !! "borrowerName" = u !! "userFullName".

(** The passwords written in [usersData]. *)
Definition plaintexts : list string :=
  (fun u => key_of (get u "password")) <$> usersData.

(** The calls of [bcrypt.genSalt] among the events. *)
Definition is_GenSalt (e : Event) : bool :=
  match e with GenSalt _ => true | _ => false end.

(** Whether a call returned rather than threw. *)
Definition returned {A} (r : Outcome A) : bool :=
  match r with Return _ => true | Throw _ => false end.

(** The documents a call builds, and the number of ObjectIds it draws, depend
    on the objects and the next ObjectId alone. *)
Fixpoint built (m : Model) (n : nat) (objs : list obj) : list obj :=
  match objs with
  | [] => []
  | o :: rest =>
      match field o "_id" with
      | Some i => <["_id" := i]> (build (schema m) o) :: built m n rest
      | None => <["_id" := VId n]> (build (schema m) o) :: built m (S n) rest
      end
  end.

(** The number of ObjectIds drawn for [objs]: one for each object that has no
    [_id] of its own. *)
Fixpoint drawn (objs : list obj) : nat :=
  match objs with
  | [] => 0
  | o :: rest =>
      match field o "_id" with
      | Some _ => drawn rest
      | None => S (drawn rest)
      end
  end.

(** The population stage up to the transactions: it hands [bookMap] and
    [userMap] to [seedTransactions]. *)
Definition reach_transactions (env : Env) : Async (obj * obj) :=
  categoryMap ← seedCategories env;
  userMap ← seedUsers env;
  bookMap ← seedBooks env categoryMap;
  mret (bookMap, userMap).

(** On the plain server and an empty database: the state in which the script
    reaches the transactions, the two maps it has then, and the state in
    which it is past the transactions. *)
Definition at_transactions : State :=
  after (reach_transactions plain_env) empty_state.

Definition plain_maps : obj * obj :=
  match (reach_transactions plain_env empty_state).1 with
  | Return maps => maps
  | Throw _ => (∅, ∅)
  end.

Definition past_transactions : State :=
  after (seedTransactions plain_env plain_maps.1 plain_maps.2) at_transactions.

(** The counts stored for the book whose [_id] is [i]. *)
Definition copies_of (i : value) (s : State) : list (option value) :=
  (fun b => b !! "bookCountAvailable") <$>
    List.filter (fun b => bool_decide (b !! "_id" = Some i)) (documents "books" s).

(** C4 as the specification states it, for a step from [s] to [s']: the book
    of every Issue transaction the step created has one copy fewer. *)
Definition issue_decrements (s s' : State) : Prop :=
  ∀ t i c,
    t ∈ documents "booktransactions" s' →
    t ∉ documents "booktransactions" s →
    t !! "transactionType" = Some (VStr "Issue") →
    t !! "bookId" = Some i →
    copies_of i s = [Some (VNum c)] →
    copies_of i s' = [Some (VNum (c - 1))].

(** The database of a finished run with one more book, of which no copy is
    left, and an Issue of that book to the first seeded user. *)
Definition stocked : State :=
  after (insertMany plain_env Book [out_of_stock]) plain_run.

(** The records have the ObjectIds 19 and 8. *)
Definition issue_out_of_stock : obj :=
  object [("bookId", VId 19); ("borrowerId", VId 8);
          ("bookName", VStr "Dune"); ("borrowerName", VStr "John Doe");
          ("transactionType", VStr "Issue");
          ("fromDate", VStr "2024-04-01"); ("toDate", VStr "2024-05-01")].

(** C7 as the specification states it: the call fails and the database is as
    before. *)
Definition fails_unchanged {A} (m : Async A) (s : State) : Prop :=
  returned (m s).1 = false ∧ db (after m s) = db s.

(** A second category of the name Fiction. *)
Definition duplicate_category : obj := object [("categoryName", VStr "Fiction")].

(** The server refuses to drop [c] with an error the script does not
    swallow. *)
Definition refuses (env : Env) (c : string) : Prop :=
  ∃ e, drop_fault env c = Some e ∧ code_differs e 26 = true.

(** No call of [insertMany] among the events. *)
Definition no_insert (l : list Event) : Prop := ∀ c n, InsertMany c n ∉ l.

(** A computation only adds to the trace. *)
Definition grows {A} (m : Async A) : Prop :=
  ∀ s, ∃ l, trace (m s).2 = (trace s ++ l)%list.

(** An error of the server with a code other than 26. *)
Definition Unauthorized : Error := {| ename := "MongoError"; ecode := Some 13%Z |}.

(** The plain server, except that it answers Unauthorized to the drop of the
    users collection. *)
Definition refusing_env : Env :=
  {| MONGO_URL := MONGO_URL plain_env;
     connect_fault := None;
     drop_fault := fun c => if bool_decide (c = "users") then Some Unauthorized else None;
     close_fault := None;
     unique_index := unique_index plain_env;
     bcrypt_genSalt := bcrypt_genSalt plain_env;
     bcrypt_hash := bcrypt_hash plain_env |}.

(** The plain server without the unique indexes: the drops have removed
    them, or mongoose has not built them by the time the writes arrive. *)
Definition unindexed_env : Env :=
  {| MONGO_URL := MONGO_URL plain_env;
     connect_fault := None;
     drop_fault := drop_fault plain_env;
     close_fault := None;
     unique_index := fun _ _ => false;
     bcrypt_genSalt := bcrypt_genSalt plain_env;
     bcrypt_hash := bcrypt_hash plain_env |}.

(** The state a run on that server ends in, from an empty database. *)
Definition unindexed_run : State :=
  after (seedDatabase unindexed_env) empty_state.

(** C6 as the specification states it, for one call: it fails with the
    error of a repeated key. *)
Definition refused_as_duplicate {A} (m : Async A) (s : State) : Prop :=
  (m s).1 = Throw DuplicateKey.



(** A transaction of the same book and user under the name of another
    book. *)
Definition misnamed : obj :=
  object [("bookId", VId 11); ("borrowerId", VId 8);
          ("bookName", VStr "Dune"); ("borrowerName", VStr "John Doe");
          ("transactionType", VStr "Issue");
          ("fromDate", VStr "2024-03-01"); ("toDate", VStr "2024-04-01")].

Definition with_misnamed : State :=
  after (insertMany plain_env BookTransaction [misnamed]) plain_run.

(** C8 as the specification states it, for the transactions of a state: each
    names a stored book and a stored user by their own names. *)
Definition snapshots (s : State) : Prop :=
  ∀ t, t ∈ documents "booktransactions" s →
       ∃ b u, b ∈ documents "books" s ∧ u ∈ documents "users" s
              ∧ snapshot_of t b u.

(** The run up to the moment the transactions are created: it hands
    [bookMap] and [userMap] to [seedTransactions]. *)
Definition reaching (env : Env) : Async (obj * obj) :=
  connecting env;; dropping env;; reach_transactions env.

(** The [_id]s of a list of documents. *)
Definition ids (docs : list obj) : list (option value) :=
  (fun d => d !! "_id") <$> docs.

(** No document of [docs] repeats, under a unique path, a key of [stored] or
    of an earlier document of [docs]. *)
Fixpoint keys_free (sch : Schema) (stored docs : list obj) : bool :=
  match docs with
  | [] => true
  | d :: rest =>
      negb (key_clash (fun _ => true) sch stored d)
      && keys_free sch (stored ++ [d])%list rest
  end.


(** ** Further inputs *)

(** An error of the driver when no server answers. *)
Definition ServerSelection : Error :=
  {| ename := "MongooseServerSelectionError"; ecode := None |}.

(** The plain server, unreachable. *)
Definition offline_env : Env :=
  {| MONGO_URL := MONGO_URL plain_env;
     connect_fault := Some ServerSelection;
     drop_fault := drop_fault plain_env;
     close_fault := None;
     unique_index := unique_index plain_env;
     bcrypt_genSalt := bcrypt_genSalt plain_env;
     bcrypt_hash := bcrypt_hash plain_env |}.

(** The state of a finished run with one more collection beside the four. *)
Definition with_reviews : State :=
  set_db <["reviews" := [object [("text", VStr "A classic.")]]]> plain_run.


(** A user record with no password. *)
Definition no_password : obj :=
  object [("userType", VStr "Member"); ("userFullName", VStr "Ann Lee");
          ("email", VStr "ann.lee@example.com");
          ("mobileNumber", VStr "5550001111")].

(** The two reports of a run: the last line of the [try] block and the line
    of the [catch] block. *)
Definition is_report (e : Event) : bool :=
  match e with
  | Console msg => bool_decide (msg = "Database seeding complete.")
  | ConsoleError _ _ => true
  | _ => false
  end.

Definition no_report (l : list Event) : Prop :=
  forallb (fun e => negb (is_report e)) l = true.

(** A computation adds events, none of them a report. *)
Definition unreported {A} (m : Async A) : Prop :=
  ∀ s, ∃ l, trace (m s).2 = (trace s ++ l)%list ∧ no_report l.

(** A computation adds events that are no report and then, when it returns
    and only then, the report of completion. *)
Definition reports (m : Async unit) : Prop :=
  ∀ s, ∃ l, no_report l
    ∧ (((m s).1 = Return tt
        ∧ trace (m s).2
          = (trace s ++ l ++ [Console "Database seeding complete."])%list)
       ∨ (∃ e, (m s).1 = Throw e ∧ trace (m s).2 = (trace s ++ l)%list)).

(** * Proofs *)

(** ** The population stage inside a larger database *)

Section Frame.

Context (r : gmap string (list obj)) (t : list Event).

Lemma local_ret {A} (a : A) : local r t (mret a).
Proof. by intros s. Qed.

Lemma local_throw {A} (e : Error) : local r t (@throw A e).
Proof. by intros s. Qed.

Lemma local_bind {A B} (m : Async A) (f : A → Async B) :
  local r t m → (∀ a, local r t (f a)) → local r t (m ≫= f).
Proof.
  intros Hm Hf s. unfold mbind, async_bind. rewrite Hm.
  destruct (m s) as [[a|e] s']; simpl; [apply Hf | done].
Qed.

Lemma local_emit (e : Event) : local r t (emit e).
Proof.
  intros s. unfold emit, embed, add_event; simpl. by rewrite (assoc_L (++)).
Qed.

Lemma local_fresh_id : local r t fresh_id.
Proof. by intros s. Qed.

Lemma local_new_document (m : Model) (o : obj) : local r t (new_document m o).
Proof.
  unfold new_document. destruct (field o "_id").
  - apply local_ret.
  - apply local_bind; [apply local_fresh_id | intros; apply local_ret].
Qed.

Lemma local_mapM {A B} (f : A → Async B) (l : list A) :
  (∀ a, local r t (f a)) → local r t (mapM f l).
Proof.
  intros Hf. induction l as [|a l IH]; simpl.
  - apply local_ret.
  - apply local_bind; [apply Hf | intros b].
    apply local_bind; [apply IH | intros k; apply local_ret].
Qed.

Lemma documents_embed (c : string) (s : State) :
  r !! c = None → documents c (embed r t s) = documents c s.
Proof. intros Hc. unfold documents; simpl. by rewrite lookup_union_l. Qed.

Lemma local_write_ordered (env : Env) (m : Model) (docs : list obj) :
  r !! collection m = None → local r t (write_ordered env m docs).
Proof.
  intros Hc. induction docs as [|d docs IH]; intros s; simpl; [done|].
  rewrite documents_embed by done.
  destruct (conflicts _ _ _ d); [done|].
  rewrite <- IH. f_equal.
  unfold embed, set_db; simpl. by rewrite insert_union_l.
Qed.

Lemma local_insertMany (env : Env) (m : Model) (objs : list obj) :
  r !! collection m = None → local r t (insertMany env m objs).
Proof.
  intros Hc. unfold insertMany.
  apply local_bind; [apply local_emit | intros _].
  apply local_bind; [apply local_mapM, local_new_document | intros docs].
  destruct (forallb _ docs); [|apply local_throw].
  apply local_bind; [by apply local_write_ordered | intros; apply local_ret].
Qed.

Lemma local_newUser (env : Env) (u : obj) : local r t (newUser env u).
Proof.
  unfold newUser, hashPassword, genSalt.
  apply local_bind; [|intros; apply local_new_document].
  apply local_bind.
  - apply local_bind; [apply local_emit | by intros _ s].
  - intros salt. destruct (get u "password");
      first [apply local_throw | apply local_ret].
Qed.

Lemma local_populating (env : Env) :
  r !! "books" = None → r !! "bookcategories" = None →
  r !! "booktransactions" = None → r !! "users" = None →
  local r t (populating env).
Proof.
  intros Hb Hc Ht Hu.
  unfold populating, seedCategories, seedUsers, seedBooks, seedTransactions,
    console_log.
  repeat lazymatch goal with
    | |- local _ _ (mret _) => apply local_ret
    | |- local _ _ (emit _) => apply local_emit
    | |- local _ _ (insertMany _ _ _) => apply local_insertMany; assumption
    | |- local _ _ (mapM _ _) => apply local_mapM; intros; apply local_newUser
    | |- local _ _ (_ ≫= _) => apply local_bind; [|intros]
    end.
Qed.

End Frame.

(** ** The population stage on an empty database *)

Lemma bind_Return {A B} (m : Async A) (f : A → Async B) s a s' :
  m s = (Return a, s') → (m ≫= f) s = f a s'.
Proof. intros H. unfold mbind, async_bind. by rewrite H. Qed.

Lemma insertMany_eq (env : Env) (m : Model) (objs docs : list obj)
    (s s1 s2 : State) :
  mapM (new_document m) objs (add_event (InsertMany (collection m) (length objs)) s)
    = (Return docs, s1) →
  forallb (valid (schema m)) docs = true →
  write_ordered env m docs s1 = (Return tt, s2) →
  insertMany env m objs s = (Return docs, s2).
Proof.
  intros Hnew Hvalid Hwrite. unfold insertMany.
  rewrite (bind_Return _ _ s tt (add_event (InsertMany (collection m) (length objs)) s)) by done.
  rewrite (bind_Return _ _ _ _ _ Hnew), Hvalid.
  by rewrite (bind_Return _ _ _ _ _ Hwrite).
Qed.

Lemma forallb_imap {A B} (P : B → bool) (f : nat → A → B) (l : list A) :
  (∀ i a, a ∈ l → P (f i a) = true) → forallb P (imap f l) = true.
Proof.
  revert f. induction l as [|a l IH]; intros f Hf; simpl; [done|].
  rewrite Hf by left. simpl. apply IH. intros i b Hb. apply Hf. by right.
Qed.

Lemma user_valid (i : nat) (u : obj) (h : string) :
  u ∈ usersData → h ≠ "" →
  valid UserSchema (<["_id" := VId i]> (build UserSchema (<["password" := VStr h]> u))) = true.
Proof.
  intros Hu Hh. destruct h as [|c h]; [done|]. unfold usersData in Hu.
  repeat (apply elem_of_cons in Hu as [->|Hu]); [..|by apply elem_of_nil in Hu];
    vm_compute; reflexivity.
Qed.

Lemma seeded_users_valid env n k :
  (∀ p salt, bcrypt_hash env p salt ≠ "") →
  forallb (valid UserSchema) (seeded_users env n k) = true.
Proof.
  intros Hne. unfold seeded_users, stamp. apply forallb_imap.
  intros i a (j & u & -> & Hu)%elem_of_lookup_imap.
  apply user_valid; [by eapply list_elem_of_lookup_2 | apply Hne].
Qed.

(** ** Writes that collide with nothing *)

Lemma documents_set_db (c : string) (l : list obj) (s : State) :
  documents c (set_db <[c := l]> s) = l.
Proof. unfold documents, set_db; simpl. by rewrite lookup_insert_eq. Qed.

Lemma key_clash_indexed (indexed : string → bool) (sch : Schema)
    (stored : list obj) (d : obj) :
  key_clash (fun _ => true) sch stored d = false →
  key_clash indexed sch stored d = false.
Proof.
  unfold key_clash. induction (unique_paths sch) as [|k ks IH]; simpl; [done|].
  intros [Hk Hks]%orb_false_elim. rewrite andb_true_r in Hk.
  by rewrite Hk, IH.
Qed.

Lemma id_clash_false (stored : list obj) (d : obj) :
  d !! "_id" ∉ ids stored → id_clash stored d = false.
Proof.
  intros Hd. unfold id_clash. apply not_true_is_false. intros Hex.
  apply existsb_exists in Hex as (d' & Hin & Heq).
  apply bool_decide_eq_true in Heq. apply Hd. rewrite <- Heq.
  apply (list_elem_of_fmap_2 (fun d' => d' !! "_id")). by apply list_elem_of_In.
Qed.

(** Documents that repeat no [_id] and no key of a unique path are all
    written, in their order, after the ones already there. *)
Lemma write_ordered_fresh (env : Env) (m : Model) (docs : list obj) (s : State) :
  docs ≠ [] →
  keys_free (schema m) (documents (collection m) s) docs = true →
  NoDup (ids (documents (collection m) s ++ docs)) →
  write_ordered env m docs s
  = (Return tt,
     mk (<[collection m := (documents (collection m) s ++ docs)%list]> (db s))
        (next_id s) (salts s) (trace s)).
Proof.
  intros Hne. revert s.
  induction docs as [|d docs IH]; intros s Hk Hid; [done|].
  simpl in Hk. apply andb_prop in Hk as [Hd Hk]. apply negb_true_iff in Hd.
  assert (id_clash (documents (collection m) s) d = false) as Hi.
  { apply id_clash_false. unfold ids in *.
    rewrite fmap_app, fmap_cons in Hid.
    apply NoDup_app in Hid as (_ & Hid & _).
    intros Hin. apply (Hid _ Hin). by left. }
  simpl. unfold conflicts. rewrite (key_clash_indexed _ _ _ _ Hd), Hi. simpl.
  destruct docs as [|d2 docs]; [done|].
  rewrite IH; [|done|by rewrite documents_set_db
               |by rewrite documents_set_db, <- (assoc_L (++))].
  rewrite documents_set_db. unfold set_db, mk; simpl.
  by rewrite insert_insert_eq, <- (assoc_L (++)).
Qed.

Lemma insertMany_fresh (env : Env) (m : Model) (objs docs stored : list obj)
    (s s1 s2 : State) :
  mapM (new_document m) objs (add_event (InsertMany (collection m) (length objs)) s)
    = (Return docs, s1) →
  documents (collection m) s1 = stored →
  (0 < List.length docs)%nat →
  forallb (valid (schema m)) docs = true →
  keys_free (schema m) stored docs = true →
  NoDup (ids (stored ++ docs)) →
  mk (<[collection m := (stored ++ docs)%list]> (db s1))
     (next_id s1) (salts s1) (trace s1) = s2 →
  insertMany env m objs s = (Return docs, s2).
Proof.
  intros Hnew <- Hlen Hvalid Hkeys Hids <-.
  apply (insertMany_eq env m objs docs s s1); [done..|].
  apply write_ordered_fresh; [|done..].
  intros ->. simpl in Hlen. lia.
Qed.

(** The ObjectIds of stamped documents are the numbers from [n] on. *)
Lemma stamp_NoDup (m : Model) (n : nat) (objs : list obj) :
  NoDup (ids (stamp m n objs)).
Proof.
  apply NoDup_alt. intros i j x Hi Hj. unfold ids, stamp in Hi, Hj.
  rewrite list_lookup_fmap, list_lookup_imap in Hi, Hj.
  destruct (objs !! i) as [oi|]; [|done].
  destruct (objs !! j) as [oj|]; [|done].
  simpl in Hi, Hj. rewrite lookup_insert_eq in Hi, Hj.
  assert (VId (i + n) = VId (j + n)) as [= Heq] by congruence. lia.
Qed.

Lemma seeded_sizes (env : Env) (n k : nat) :
  List.length (seeded_categories n) = 8
  ∧ List.length (seeded_users env n k) = 3
  ∧ List.length (seeded_books n) = 5
  ∧ List.length (seeded_transactions env n k) = 3.
Proof.
  vm_cast_no_check (conj (eq_refl 8) (conj (eq_refl 3) (conj (eq_refl 5) (eq_refl 3)))).
Qed.

Section Stages.
Context (env : Env) (n k : nat).

Lemma seedCategories_clean :
  seedCategories env (clean n k)
  = (Return (index_by "categoryName" (seeded_categories n)), (after_categories n k)).
Proof.
  unfold seedCategories, console_log.
  pose (docs := seeded_categories n).
  pose (s0 := add_event (Console "Seeding categories...") (clean n k)).
  pose (s1 := mk ∅ (8 + n) k
                [Console "Seeding categories..."; InsertMany "bookcategories" 8]).
  pose (s2 := set_db <["bookcategories" := docs]> s1).
  rewrite (bind_Return _ _ _ tt s0) by reflexivity.
  rewrite (bind_Return (insertMany _ _ _) _ _ docs s2); cycle 1.
  { apply (insertMany_fresh env BookCategory categoriesData docs [] s0 s1 s2).
    - vm_cast_no_check (eq_refl (Return docs, s1)).
    - reflexivity.
    - destruct (seeded_sizes env n k) as (Hlen & _). fold docs in Hlen. lia.
    - vm_cast_no_check (eq_refl true).
    - vm_cast_no_check (eq_refl true).
    - apply stamp_NoDup.
    - reflexivity. }
  vm_cast_no_check
    (eq_refl (Return (index_by "categoryName" docs), (after_categories n k))).
Qed.

Lemma seedUsers_eq :
  (∀ p salt, bcrypt_hash env p salt ≠ "") →
  seedUsers env (after_categories n k)
  = (Return (index_by "userFullName" (seeded_users env n k)), (after_users env n k)).
Proof.
  intros Hne. unfold seedUsers, console_log.
  pose (users := seeded_users env n k).
  pose (s1 := mk (db (after_categories n k)) (11 + n) (3 + k)
                (trace (after_categories n k) ++
                 [Console "Seeding users..."; GenSalt 10; GenSalt 10; GenSalt 10])).
  pose (s2 := add_event (InsertMany "users" 3) s1).
  pose (s3 := set_db <["users" := users]> s2).
  rewrite (bind_Return _ _ _ tt (add_event (Console "Seeding users...") (after_categories n k)))
    by reflexivity.
  rewrite (bind_Return (mapM _ _) _ _ users s1); cycle 1.
  { vm_cast_no_check (eq_refl (Return users, s1)). }
  rewrite (bind_Return (insertMany _ _ _) _ _ users s3); cycle 1.
  { apply (insertMany_fresh env User users users [] s1 s2 s3).
    - vm_cast_no_check (eq_refl (Return users, s2)).
    - vm_cast_no_check (eq_refl (@nil obj)).
    - destruct (seeded_sizes env n k) as (_ & Hlen & _). fold users in Hlen. lia.
    - by apply seeded_users_valid.
    - vm_cast_no_check (eq_refl true).
    - apply stamp_NoDup.
    - vm_cast_no_check (eq_refl s3). }
  vm_cast_no_check (eq_refl (Return (index_by "userFullName" users), (after_users env n k))).
Qed.

Lemma seedBooks_eq :
  seedBooks env (index_by "categoryName" (seeded_categories n)) (after_users env n k)
  = (Return (index_by "bookName" (seeded_books n)), (after_books env n k)).
Proof.
  unfold seedBooks, console_log.
  pose (docs := seeded_books n).
  pose (s0 := add_event (Console "Seeding books...") (after_users env n k)).
  pose (s1 := mk (db (after_users env n k)) (16 + n) (3 + k)
                (trace (after_users env n k) ++
                 [Console "Seeding books..."; InsertMany "books" 5])).
  pose (s2 := set_db <["books" := docs]> s1).
  rewrite (bind_Return _ _ _ tt s0) by reflexivity.
  rewrite (bind_Return (insertMany _ _ _) _ _ docs s2); cycle 1.
  { apply (insertMany_fresh env Book
             (booksData (index_by "categoryName" (seeded_categories n)))
             docs [] s0 s1 s2).
    - vm_cast_no_check (eq_refl (Return docs, s1)).
    - vm_cast_no_check (eq_refl (@nil obj)).
    - destruct (seeded_sizes env n k) as (_ & _ & Hlen & _). fold docs in Hlen. lia.
    - vm_cast_no_check (eq_refl true).
    - vm_cast_no_check (eq_refl true).
    - apply stamp_NoDup.
    - vm_cast_no_check (eq_refl s2). }
  vm_cast_no_check
    (eq_refl (Return (index_by "bookName" docs), (after_books env n k))).
Qed.

Lemma seedTransactions_eq :
  seedTransactions env (index_by "bookName" (seeded_books n))
                   (index_by "userFullName" (seeded_users env n k)) (after_books env n k)
  = (Return tt, (after_transactions env n k)).
Proof.
  unfold seedTransactions, console_log.
  pose (docs := seeded_transactions env n k).
  pose (s0 := add_event (Console "Seeding transactions...") (after_books env n k)).
  pose (s1 := mk (db (after_books env n k)) (19 + n) (3 + k)
                (trace (after_books env n k) ++
                 [Console "Seeding transactions...";
                  InsertMany "booktransactions" 3])).
  pose (s2 := set_db <["booktransactions" := docs]> s1).
  rewrite (bind_Return _ _ _ tt s0) by reflexivity.
  rewrite (bind_Return (insertMany _ _ _) _ _ docs s2); cycle 1.
  { apply (insertMany_fresh env BookTransaction
             (transactionsData (index_by "bookName" (seeded_books n))
                (index_by "userFullName" (seeded_users env n k)))
             docs [] s0 s1 s2).
    - vm_cast_no_check (eq_refl (Return docs, s1)).
    - vm_cast_no_check (eq_refl (@nil obj)).
    - destruct (seeded_sizes env n k) as (_ & _ & _ & Hlen). fold docs in Hlen. lia.
    - vm_cast_no_check (eq_refl true).
    - vm_cast_no_check (eq_refl true).
    - apply stamp_NoDup.
    - vm_cast_no_check (eq_refl s2). }
  vm_cast_no_check (eq_refl (Return tt, (after_transactions env n k))).
Qed.

Lemma populating_clean :
  (∀ p salt, bcrypt_hash env p salt ≠ "") →
  populating env (clean n k)
  = (Return tt,
     add_event (Console "Database seeding complete.") (after_transactions env n k)).
Proof.
  intros Hne. unfold populating.
  rewrite (bind_Return _ _ _ _ _ seedCategories_clean).
  rewrite (bind_Return _ _ _ _ _ (seedUsers_eq Hne)).
  rewrite (bind_Return _ _ _ _ _ seedBooks_eq).
  by rewrite (bind_Return _ _ _ _ _ seedTransactions_eq).
Qed.

Lemma after_transactions_eq :
  add_event (Console "Database seeding complete.") (after_transactions env n k)
  = mk (seeded_db env n k) (19 + n) (3 + k) populate_events.
Proof.
  vm_cast_no_check (eq_refl (mk (seeded_db env n k) (19 + n) (3 + k) populate_events)).
Qed.
End Stages.

(** ** The connection and the drops *)

Lemma then_eq {B} (m : Async unit) (k : Async B) (s s' : State) :
  m s = (Return tt, s') → (m;; k) s = k s'.
Proof. apply bind_Return. Qed.

Lemma bind_Throw {A B} (m : Async A) (f : A → Async B) s e s' :
  m s = (Throw e, s') → (m ≫= f) s = (Throw e, s').
Proof. intros H. unfold mbind, async_bind. by rewrite H. Qed.

Lemma emit_eq (e : Event) (s : State) :
  emit e s = (Return tt, mk (db s) (next_id s) (salts s) (trace s ++ [e])).
Proof. done. Qed.

Lemma connect_ok (env : Env) (s : State) :
  connect_fault env = None →
  connect env s
  = (Return tt,
     mk (db s) (next_id s) (salts s) (trace s ++ [Connect (MONGO_URL env)])).
Proof.
  intros Hc. unfold connect. by rewrite (then_eq _ _ _ _ (emit_eq _ _)), Hc.
Qed.

Lemma connect_refused (env : Env) (s : State) (e : Error) :
  connect_fault env = Some e →
  connect env s
  = (Throw e,
     mk (db s) (next_id s) (salts s) (trace s ++ [Connect (MONGO_URL env)])).
Proof.
  intros Hc. unfold connect. by rewrite (then_eq _ _ _ _ (emit_eq _ _)), Hc.
Qed.

Lemma connecting_ok (env : Env) (s : State) :
  connect_fault env = None →
  connecting env s
  = (Return tt,
     mk (db s) (next_id s) (salts s) (trace s ++ connect_events env)).
Proof.
  intros Hc. unfold connecting, console_log.
  rewrite !(then_eq _ _ _ _ (emit_eq _ _)).
  rewrite (then_eq _ _ _ _ (connect_ok _ _ Hc)), emit_eq. simpl.
  by rewrite <- !(assoc_L (++)).
Qed.

Lemma connecting_refused (env : Env) (s : State) (e : Error) :
  connect_fault env = Some e →
  connecting env s
  = (Throw e,
     mk (db s) (next_id s) (salts s)
        (trace s ++ [Console "Connecting to database...";
                     Console ("MONGO_URL: " ++ MONGO_URL env);
                     Connect (MONGO_URL env)])).
Proof.
  intros Hc. unfold connecting, console_log.
  rewrite !(then_eq _ _ _ _ (emit_eq _ _)).
  rewrite (bind_Throw _ _ _ _ _ (connect_refused _ _ _ Hc)). simpl.
  by rewrite <- !(assoc_L (++)).
Qed.

(** A drop that the server does not refuse goes through, whether or not the
    collection was there. *)
Lemma drop_unless_missing (env : Env) (c : string) (s : State) :
  drop_fault env c = None →
  try_catch (dropCollection env c) unless_missing s
  = (Return tt,
     mk (delete c (db s)) (next_id s) (salts s) (trace s ++ [DropCollection c])).
Proof.
  intros Hf. unfold try_catch, dropCollection.
  rewrite (then_eq _ _ _ _ (emit_eq _ _)), Hf. unfold server_drop; simpl.
  destruct (db s !! c) eqn:Hc; [done|].
  by rewrite delete_id.
Qed.

(** A drop that the server refuses with a code other than 26 is thrown on. *)
Lemma drop_refused (env : Env) (c : string) (s : State) (e : Error) :
  drop_fault env c = Some e → code_differs e 26 = true →
  try_catch (dropCollection env c) unless_missing s
  = (Throw e,
     mk (db s) (next_id s) (salts s) (trace s ++ [DropCollection c])).
Proof.
  intros Hf He. unfold try_catch, dropCollection.
  rewrite (then_eq _ _ _ _ (emit_eq _ _)), Hf. unfold throw, unless_missing.
  by rewrite He.
Qed.

(** A refusal with code 26 is swallowed and the collection stays as it is. *)
Lemma drop_refused_26 (env : Env) (c : string) (s : State) (e : Error) :
  drop_fault env c = Some e → code_differs e 26 = false →
  try_catch (dropCollection env c) unless_missing s
  = (Return tt,
     mk (db s) (next_id s) (salts s) (trace s ++ [DropCollection c])).
Proof.
  intros Hf He. unfold try_catch, dropCollection.
  rewrite (then_eq _ _ _ _ (emit_eq _ _)), Hf. unfold throw, unless_missing.
  by rewrite He.
Qed.

Lemma dropping_ok (env : Env) (s : State) :
  (∀ c, drop_fault env c = None) →
  dropping env s
  = (Return tt,
     mk (dropped (db s)) (next_id s) (salts s) (trace s ++ drop_events)).
Proof.
  intros Hf. unfold dropping, console_log.
  rewrite (then_eq _ _ _ _ (emit_eq _ _)).
  rewrite !(then_eq _ _ _ _ (drop_unless_missing _ _ _ (Hf _))).
  rewrite emit_eq. simpl. by rewrite <- !(assoc_L (++)).
Qed.

Lemma dropped_lookup (d : gmap string (list obj)) (c : string) :
  c ∈ ["books"; "bookcategories"; "booktransactions"; "users"] →
  dropped d !! c = None.
Proof.
  intros Hc. unfold dropped.
  repeat (apply elem_of_cons in Hc as [->|Hc]);
    [..|by apply elem_of_nil in Hc]; by simplify_map_eq.
Qed.

(** ** The whole run with nothing going wrong *)

Lemma populating_ok (env : Env) (s : State) :
  (∀ p salt, bcrypt_hash env p salt ≠ "") →
  (∀ c, c ∈ ["books"; "bookcategories"; "booktransactions"; "users"] →
        db s !! c = None) →
  populating env s
  = (Return tt,
     mk (seeded_db env (next_id s) (salts s) ∪ db s)
        (19 + next_id s) (3 + salts s) (trace s ++ populate_events)).
Proof.
  intros Hne Hd.
  assert (s = embed (db s) (trace s) (clean (next_id s) (salts s))) as Hs.
  { destruct s as [d n k t]; unfold embed, clean, mk; simpl.
    by rewrite (left_id_L ∅ (∪)), (right_id_L [] (++)). }
  rewrite Hs at 1.
  rewrite local_populating by (apply Hd; set_solver).
  by rewrite populating_clean, after_transactions_eq.
Qed.

(** The [finally] block: closing and, when that has not failed, the last
    line of the log. *)
Lemma closing_eq (env : Env) (s : State) :
  (close env;; console_log "Database connection closed.") s
  = (settled env,
     mk (db s) (next_id s) (salts s) (trace s ++ close_events env)).
Proof.
  unfold close, console_log, settled, close_events, mbind, async_bind, emit.
  destruct (close_fault env) as [e|]; simpl; [done|].
  unfold add_event, mk; simpl. by rewrite <- (assoc_L (++)).
Qed.

(** A run whose [try] block ends in [s1], with or without an error caught on
    the way: the promise settles as closing does. *)
Lemma finally_closing (env : Env) (body : Async unit) (s s1 : State) :
  body s = (Return tt, s1) →
  finally body (close env;; console_log "Database connection closed.") s
  = (settled env,
     mk (db s1) (next_id s1) (salts s1) (trace s1 ++ close_events env)).
Proof.
  intros Hbody. unfold finally. rewrite Hbody, closing_eq.
  unfold settled. by destruct (close_fault env).
Qed.

Theorem seedDatabase_ok (env : Env) (s : State) :
  well_behaved env →
  seedDatabase env s
  = (settled env,
     mk (seeded_db env (next_id s) (salts s) ∪ dropped (db s))
        (19 + next_id s) (3 + salts s)
        (trace s ++ connect_events env ++ drop_events ++ populate_events
                 ++ close_events env)).
Proof.
  intros (Hc & Hf & Hne).
  unfold seedDatabase.
  rewrite (finally_closing env _ s
             (mk (seeded_db env (next_id s) (salts s) ∪ dropped (db s))
                 (19 + next_id s) (3 + salts s)
                 (trace s ++ connect_events env ++ drop_events
                    ++ populate_events))).
  - simpl. by rewrite <- !(assoc_L (++)).
  - unfold try_catch, seeding.
    rewrite (then_eq _ _ _ _ (connecting_ok _ _ Hc)).
    rewrite (then_eq _ _ _ _ (dropping_ok _ _ Hf)).
    rewrite populating_ok by (done || apply dropped_lookup). simpl.
    by rewrite <- !(assoc_L (++)).
Qed.

(** The four collections after such a run. *)
Section Outcome.

Context (env : Env) (s : State) (Henv : well_behaved env).

Lemma after_seedDatabase :
  after (seedDatabase env) s
  = mk (seeded_db env (next_id s) (salts s) ∪ dropped (db s))
       (19 + next_id s) (3 + salts s)
       (trace s ++ connect_events env ++ drop_events ++ populate_events
                ++ close_events env).
Proof. unfold after. by rewrite seedDatabase_ok. Qed.

Lemma final_categories :
  documents "bookcategories" (after (seedDatabase env) s)
  = seeded_categories (next_id s).
Proof.
  rewrite after_seedDatabase. unfold documents, mk, seeded_db; simpl.
  by erewrite lookup_union_Some_l by by simplify_map_eq.
Qed.

Lemma final_users :
  documents "users" (after (seedDatabase env) s)
  = seeded_users env (next_id s) (salts s).
Proof.
  rewrite after_seedDatabase. unfold documents, mk, seeded_db; simpl.
  by erewrite lookup_union_Some_l by by simplify_map_eq.
Qed.

Lemma final_books :
  documents "books" (after (seedDatabase env) s) = seeded_books (next_id s).
Proof.
  rewrite after_seedDatabase. unfold documents, mk, seeded_db; simpl.
  by erewrite lookup_union_Some_l by by simplify_map_eq.
Qed.

Lemma final_transactions :
  documents "booktransactions" (after (seedDatabase env) s)
  = seeded_transactions env (next_id s) (salts s).
Proof.
  rewrite after_seedDatabase. unfold documents, mk, seeded_db; simpl.
  by erewrite lookup_union_Some_l by by simplify_map_eq.
Qed.

Lemma final_events :
  events (seedDatabase env) s
  = (connect_events env ++ drop_events ++ populate_events
       ++ close_events env)%list.
Proof.
  unfold events. rewrite after_seedDatabase. simpl. by rewrite drop_app_length.
Qed.

End Outcome.

Lemma forallb_elem {A} (p : A → bool) (l : list A) (x : A) :
  forallb p l = true → x ∈ l → p x = true.
Proof.
  intros Hp Hx. rewrite forallb_forall in Hp. by apply Hp, list_elem_of_In.
Qed.

Lemma plain_env_well_behaved : well_behaved plain_env.
Proof. by repeat split. Qed.

(** ** Book counts (C1) *)

Lemma build_strict (sch : Schema) (o : obj) (k : string) :
  k ∉ sch.*1 → build sch o !! k = None.
Proof.
  induction sch as [|[k' p] sch IH]; intros Hk; simpl; [done|].
  apply not_elem_of_cons in Hk as [Hne Hk]. simpl in Hne.
  destruct (match field o k' with Some v => Some v | None => initial p end);
    [rewrite lookup_insert_ne by done|]; by apply IH.
Qed.

(** What [build] leaves under a declared path: the object's value, else the
    path's initial value. *)
Lemma build_lookup (sch : Schema) (o : obj) (k : string) (p : PathOptions) :
  NoDup sch.*1 → (k, p) ∈ sch →
  build sch o !! k
  = match field o k with Some v => Some v | None => initial p end.
Proof.
  induction sch as [|[k' p'] sch IH]; intros Hnd Hk; [by apply elem_of_nil in Hk|].
  apply NoDup_cons in Hnd as [Hk' Hnd]. simpl in *.
  apply elem_of_cons in Hk as [[= <- <-]|Hk].
  - destruct (field o k) as [v|]; [by rewrite lookup_insert_eq|].
    destruct (initial p) as [v|]; [by rewrite lookup_insert_eq|].
    by apply build_strict.
  - assert (k' ≠ k) as Hne.
    { intros ->. apply Hk'. by apply (list_elem_of_fmap_2 fst _ (k, p)). }
    destruct (match field o k' with Some v => Some v | None => initial p' end);
      [rewrite lookup_insert_ne by done|]; by apply IH.
Qed.

Lemma schemas_NoDup :
  NoDup BookSchema.*1 ∧ NoDup BookCategorySchema.*1
  ∧ NoDup BookTransactionSchema.*1 ∧ NoDup UserSchema.*1.
Proof. refine (bool_decide_unpack _ _). vm_cast_no_check I. Qed.

Lemma seeded_books_counts (n : nat) :
  forallb (fun b => count_in_range b && bool_decide (b !! "totalCopies" = None))
          (seeded_books n) = true.
Proof. vm_cast_no_check (eq_refl true). Qed.

Lemma plain_run_sizes :
  List.length (documents "bookcategories" plain_run) = 8
  ∧ List.length (documents "users" plain_run) = 3
  ∧ List.length (documents "books" plain_run) = 5
  ∧ List.length (documents "booktransactions" plain_run) = 3.
Proof. vm_cast_no_check (conj (eq_refl 8) (conj (eq_refl 3) (conj (eq_refl 5) (eq_refl 3)))). Qed.

Lemma plain_book (i : nat) :
  i < 5 → documents "books" plain_run !!! i ∈ documents "books" plain_run.
Proof.
  intros Hi. apply list_elem_of_lookup_total_2.
  destruct plain_run_sizes as (_ & _ & Hlen & _). congruence.
Qed.

(** C1, as stated, fails: the first book a run stores has five copies
    available and no total. *)
Lemma C1_no_total :
  ¬ (∀ b, b ∈ documents "books" plain_run → within_total b).
Proof.
  intros H.
  destruct (H (documents "books" plain_run !!! 0)) as (avail & total & _ & Htotal & _).
  { apply plain_book. lia. }
  assert ((documents "books" plain_run !!! 0) !! "totalCopies" = None) as Hnone.
  { vm_cast_no_check (eq_refl (@None value)). }
  congruence.
Qed.

(** C1, amended: after a run on a well-behaved server every book has between
    1 and 5 copies available, so never fewer than 0, and no total: the Book
    schema has no such path, so no document of the model carries one. *)
Theorem C1_seeded_counts (env : Env) (s : State) (b : obj) :
  well_behaved env →
  b ∈ documents "books" (after (seedDatabase env) s) →
  (∃ c : Z, b !! "bookCountAvailable" = Some (VNum c) ∧ (1 ≤ c ≤ 5)%Z)
  ∧ b !! "totalCopies" = None
  ∧ ∀ o : obj, build BookSchema o !! "totalCopies" = None.
Proof.
  intros Henv Hb. rewrite final_books in Hb by done.
  pose proof (forallb_elem _ _ _ (seeded_books_counts (next_id s)) Hb) as Hc.
  apply andb_prop in Hc as [Hc Hnone]. apply bool_decide_eq_true in Hnone.
  unfold count_in_range in Hc.
  split; [|split; [done|]].
  - destruct (b !! "bookCountAvailable") as [[| |c| | |]|]; try done.
    exists c. split; [done|]. apply andb_prop in Hc as [?%Z.leb_le ?%Z.leb_le]. lia.
  - intros o. apply build_strict.
    refine (bool_decide_unpack _ _). vm_cast_no_check I.
Qed.

Lemma C1_seeded_counts_witness :
  (∃ c : Z, (documents "books" plain_run !!! 1) !! "bookCountAvailable" = Some (VNum c)
            ∧ (1 ≤ c ≤ 5)%Z)
  ∧ (documents "books" plain_run !!! 1) !! "totalCopies" = None
  ∧ ∀ o : obj, build BookSchema o !! "totalCopies" = None.
Proof.
  apply (C1_seeded_counts plain_env empty_state).
  - by repeat split.
  - apply plain_book. lia.
Defined.

Lemma plain_transaction (i : nat) :
  i < 3 →
  documents "booktransactions" plain_run !!! i
  ∈ documents "booktransactions" plain_run.
Proof.
  intros Hi. apply list_elem_of_lookup_total_2.
  destruct plain_run_sizes as (_ & _ & _ & Hlen). congruence.
Qed.

(** ** Return dates (C2) *)






(** ** Book status (C3) *)

Lemma shelf_books :
  List.length (documents "books" shelf) = 1
  ∧ (documents "books" shelf !!! 0) !! "bookCountAvailable" = Some (VNum 0)
  ∧ (documents "books" shelf !!! 0) !! "bookStatus" = Some (VStr "Available")
  ∧ derived_status (documents "books" shelf !!! 0) = VStr "Unavailable".
Proof.
  vm_cast_no_check
    (conj (eq_refl 1)
       (conj (eq_refl (Some (VNum 0)))
          (conj (eq_refl (Some (VStr "Available")))
                (eq_refl (VStr "Unavailable"))))).
Qed.

Lemma seeded_books_status (n : nat) :
  forallb (fun b => bool_decide (b !! "bookStatus" = Some (VStr "Available"))
                    && bool_decide (derived_status b = VStr "Available"))
          (seeded_books n) = true.
Proof. vm_cast_no_check (eq_refl true). Qed.

(** C3, as stated, fails: bookStatus is a stored path of the Book schema, and
    a book stored with no copy left has the stored status Available, not the
    derived one. *)
Lemma C3_status_stored :
  ¬ (∀ b, b ∈ documents "books" shelf → b !! "bookStatus" = Some (derived_status b)).
Proof.
  intros H. destruct shelf_books as (Hlen & _ & Hstored & Hderived).
  specialize (H (documents "books" shelf !!! 0)).
  rewrite Hderived in H.
  assert (Some (VStr "Available") = Some (VStr "Unavailable")) as [=].
  rewrite <- Hstored. apply H.
  apply list_elem_of_lookup_total_2. rewrite Hlen. lia.
Qed.

(** C3, amended: bookStatus is a stored String path whose default is
    Available whatever the count.  After a run on a well-behaved server every
    book has the stored status Available and a positive count, so there the
    stored status is also the derived one. *)
Theorem C3_seeded_status (env : Env) (s : State) (b : obj) :
  well_behaved env →
  b ∈ documents "books" (after (seedDatabase env) s) →
  b !! "bookStatus" = Some (VStr "Available")
  ∧ derived_status b = VStr "Available"
  ∧ ("bookStatus", dflt (VStr "Available") (path TString)) ∈ BookSchema
  ∧ ∀ o : obj, field o "bookStatus" = None →
               build BookSchema o !! "bookStatus" = Some (VStr "Available").
Proof.
  intros Henv Hb. rewrite final_books in Hb by done.
  pose proof (forallb_elem _ _ _ (seeded_books_status (next_id s)) Hb) as Hc.
  apply andb_prop in Hc as [?%bool_decide_eq_true ?%bool_decide_eq_true].
  assert (("bookStatus", dflt (VStr "Available") (path TString)) ∈ BookSchema)
    as Hpath by (unfold BookSchema; repeat constructor).
  repeat split; [done..|].
  intros o Ho.
  rewrite (build_lookup BookSchema o _ _ (proj1 schemas_NoDup) Hpath).
  by rewrite Ho.
Qed.

Lemma C3_seeded_status_witness :
  (documents "books" plain_run !!! 4) !! "bookStatus" = Some (VStr "Available")
  ∧ derived_status (documents "books" plain_run !!! 4) = VStr "Available"
  ∧ ("bookStatus", dflt (VStr "Available") (path TString)) ∈ BookSchema
  ∧ ∀ o : obj, field o "bookStatus" = None →
               build BookSchema o !! "bookStatus" = Some (VStr "Available").
Proof.
  apply (C3_seeded_status plain_env empty_state).
  - by repeat split.
  - apply plain_book. lia.
Defined.

(** ** What the seeding program writes (C5) *)

Lemma plain_run_events :
  events (seedDatabase plain_env) empty_state
  = (connect_events plain_env ++ drop_events ++ populate_events
       ++ close_events plain_env)%list.
Proof. apply final_events, plain_env_well_behaved. Qed.

(** C5, as stated, fails: the run writes three transaction records. *)
Lemma C5_writes_transactions :
  ¬ writes_no_transaction (events (seedDatabase plain_env) empty_state) plain_run.
Proof.
  intros [Hev _]. apply (Hev 3). rewrite plain_run_events.
  unfold connect_events, drop_events, populate_events, close_events.
  apply list_elem_of_In. simpl. tauto.
Qed.

Lemma seeded_fields (env : Env) (n k : nat) :
  ((fun t => (t !! "transactionType", t !! "transactionStatus")) <$>
     seeded_transactions env n k)
  = [ (Some (VStr "Issue"), Some (VStr "Active"));
      (Some (VStr "Reservation"), Some (VStr "Active"));
      (Some (VStr "Issue"), Some (VStr "Completed")) ]
  ∧ ((fun b => (b !! "bookCountAvailable", b !! "transactions")) <$> seeded_books n)
    = [ (Some (VNum 5), Some (VArr [])); (Some (VNum 3), Some (VArr []));
        (Some (VNum 2), Some (VArr [])); (Some (VNum 4), Some (VArr []));
        (Some (VNum 1), Some (VArr [])) ]
  ∧ ((fun u => (u !! "activeTransactions", u !! "prevTransactions")) <$>
       seeded_users env n k)
    = [ (Some (VArr []), Some (VArr [])); (Some (VArr []), Some (VArr []));
        (Some (VArr []), Some (VArr [])) ].
Proof.
  vm_cast_no_check
    (conj (eq_refl ((fun t => (t !! "transactionType", t !! "transactionStatus")) <$>
                      seeded_transactions env n k))
       (conj (eq_refl ((fun b => (b !! "bookCountAvailable", b !! "transactions")) <$>
                         seeded_books n))
             (eq_refl ((fun u => (u !! "activeTransactions", u !! "prevTransactions")) <$>
                         seeded_users env n k)))).
Qed.

(** C5, amended: on a well-behaved server the database calls of a run are the
    connection, the four drops and four [insertMany] calls, one per
    collection, the last of them writing three transaction records (an
    active Issue, an active Reservation and an Issue stored as Completed);
    nothing is written after a record is inserted: every book keeps the count
    it was given and an empty list of transactions, and every user empty
    lists of active and previous transactions. *)
Theorem C5_plain_inserts_only (env : Env) (s : State) :
  well_behaved env →
  events (seedDatabase env) s
  = (connect_events env ++ drop_events ++ populate_events
       ++ close_events env)%list
  ∧ ((fun t => (t !! "transactionType", t !! "transactionStatus")) <$>
       documents "booktransactions" (after (seedDatabase env) s))
    = [ (Some (VStr "Issue"), Some (VStr "Active"));
        (Some (VStr "Reservation"), Some (VStr "Active"));
        (Some (VStr "Issue"), Some (VStr "Completed")) ]
  ∧ ((fun b => (b !! "bookCountAvailable", b !! "transactions")) <$>
       documents "books" (after (seedDatabase env) s))
    = [ (Some (VNum 5), Some (VArr [])); (Some (VNum 3), Some (VArr []));
        (Some (VNum 2), Some (VArr [])); (Some (VNum 4), Some (VArr []));
        (Some (VNum 1), Some (VArr [])) ]
  ∧ ((fun u => (u !! "activeTransactions", u !! "prevTransactions")) <$>
       documents "users" (after (seedDatabase env) s))
    = [ (Some (VArr []), Some (VArr [])); (Some (VArr []), Some (VArr []));
        (Some (VArr []), Some (VArr [])) ].
Proof.
  intros Henv.
  rewrite final_events, final_transactions, final_books, final_users by done.
  split; [done|]. apply seeded_fields.
Qed.

Lemma C5_plain_inserts_only_witness :
  events (seedDatabase plain_env) empty_state
  = (connect_events plain_env ++ drop_events ++ populate_events
       ++ close_events plain_env)%list
  ∧ ((fun t => (t !! "transactionType", t !! "transactionStatus")) <$>
       documents "booktransactions" (after (seedDatabase plain_env) empty_state))
    = [ (Some (VStr "Issue"), Some (VStr "Active"));
        (Some (VStr "Reservation"), Some (VStr "Active"));
        (Some (VStr "Issue"), Some (VStr "Completed")) ]
  ∧ ((fun b => (b !! "bookCountAvailable", b !! "transactions")) <$>
       documents "books" (after (seedDatabase plain_env) empty_state))
    = [ (Some (VNum 5), Some (VArr [])); (Some (VNum 3), Some (VArr []));
        (Some (VNum 2), Some (VArr [])); (Some (VNum 4), Some (VArr []));
        (Some (VNum 1), Some (VArr [])) ]
  ∧ ((fun u => (u !! "activeTransactions", u !! "prevTransactions")) <$>
       documents "users" (after (seedDatabase plain_env) empty_state))
    = [ (Some (VArr []), Some (VArr [])); (Some (VArr []), Some (VArr []));
        (Some (VArr []), Some (VArr [])) ].
Proof.
  apply (C5_plain_inserts_only plain_env empty_state). by repeat split.
Defined.

(** ** Snapshot names (C8) *)

Lemma list_of_3 {A} `{!Inhabited A} (l : list A) :
  List.length l = 3 → l = [l !!! 0; l !!! 1; l !!! 2].
Proof. by destruct l as [|a [|b [|c [|d l]]]]. Qed.

Lemma seeded_snapshot (env : Env) (n k : nat) (i bi ui : nat) :
  (i, bi, ui) ∈ [(0, 0, 0); (1, 1, 1); (2, 3, 0)] →
  snapshot_of (seeded_transactions env n k !!! i)
              (seeded_books n !!! bi) (seeded_users env n k !!! ui).
Proof.
  intros Hi. unfold snapshot_of.
  repeat (apply elem_of_cons in Hi as [[= -> -> ->]|Hi]);
    [..|by apply elem_of_nil in Hi];
    repeat lazymatch goal with
      | |- _ ∧ _ => split
      | |- is_Some _ => refine (bool_decide_unpack _ _); vm_cast_no_check I
      | |- _ = ?r => vm_cast_no_check (eq_refl r)
      end.
Qed.

Lemma misnamed_stored :
  List.length (documents "booktransactions" with_misnamed) = 4
  ∧ (documents "booktransactions" with_misnamed !!! 3) !! "bookId"
    = Some (VId 11)
  ∧ (documents "booktransactions" with_misnamed !!! 3) !! "bookName"
    = Some (VStr "Dune")
  ∧ forallb (fun b => negb (bool_decide (b !! "_id" = Some (VId 11))
                            && bool_decide (b !! "bookName" = Some (VStr "Dune"))))
            (documents "books" with_misnamed) = true.
Proof.
  vm_cast_no_check
    (conj (eq_refl 4)
       (conj (eq_refl (Some (VId 11)))
          (conj (eq_refl (Some (VStr "Dune"))) (eq_refl true)))).
Qed.

(** C8, as stated, fails: the two names are required strings and nothing
    more, and a transaction record that refers to the book with [_id] 11,
    The Lord of the Rings, under the name Dune passes the schema and is
    stored as it is. *)
Lemma C8_names_not_checked : ¬ snapshots with_misnamed.
Proof.
  intros H. destruct misnamed_stored as (Hlen & Hid & Hname & Hbooks).
  destruct (H (documents "booktransactions" with_misnamed !!! 3))
    as (b & u & Hb & _ & Hsnap).
  { apply list_elem_of_lookup_total_2. rewrite Hlen. lia. }
  destruct Hsnap as (_ & Hbid & _ & _ & _ & Hbname & _).
  assert (b !! "_id" = Some (VId 11)) as Hb1 by (rewrite <- Hbid; exact Hid).
  assert (b !! "bookName" = Some (VStr "Dune")) as Hb2
    by (rewrite <- Hbname; exact Hname).
  pose proof (forallb_elem _ _ _ Hbooks Hb) as Hn. cbv beta in Hn.
  rewrite !bool_decide_eq_true_2 in Hn by assumption. discriminate Hn.
Qed.

(** ** The moment the transactions are created *)

Lemma local_reach (r : gmap string (list obj)) (t : list Event) (env : Env) :
  r !! "books" = None → r !! "bookcategories" = None → r !! "users" = None →
  local r t (reach_transactions env).
Proof.
  intros Hb Hc Hu.
  unfold reach_transactions, seedCategories, seedUsers, seedBooks, console_log.
  repeat lazymatch goal with
    | |- local _ _ (mret _) => apply local_ret
    | |- local _ _ (emit _) => apply local_emit
    | |- local _ _ (insertMany _ _ _) => apply local_insertMany; assumption
    | |- local _ _ (mapM _ _) => apply local_mapM; intros; apply local_newUser
    | |- local _ _ (_ ≫= _) => apply local_bind; [|intros]
    end.
Qed.

Lemma reach_clean (env : Env) (n k : nat) :
  (∀ p salt, bcrypt_hash env p salt ≠ "") →
  reach_transactions env (clean n k)
  = (Return (index_by "bookName" (seeded_books n),
             index_by "userFullName" (seeded_users env n k)),
     after_books env n k).
Proof.
  intros Hne. unfold reach_transactions.
  rewrite (bind_Return _ _ _ _ _ (seedCategories_clean env n k)).
  rewrite (bind_Return _ _ _ _ _ (seedUsers_eq env n k Hne)).
  by rewrite (bind_Return _ _ _ _ _ (seedBooks_eq env n k)).
Qed.

Lemma populating_split (env : Env) (s : State) :
  populating env s
  = (reach_transactions env ≫= fun maps =>
       seedTransactions env maps.1 maps.2;;
       console_log "Database seeding complete.") s.
Proof.
  unfold populating, reach_transactions, mbind, async_bind.
  destruct (seedCategories env s) as [[categoryMap|e] s1]; [|done].
  destruct (seedUsers env s1) as [[userMap|e] s2]; [|done].
  by destruct (seedBooks env categoryMap s2) as [[bookMap|e] s3].
Qed.

(** The [try] block is the run up to the transactions, then their creation
    and the last line of the log. *)
Lemma seeding_split (env : Env) (s : State) :
  seeding env s
  = (reaching env ≫= fun maps =>
       seedTransactions env maps.1 maps.2;;
       console_log "Database seeding complete.") s.
Proof.
  unfold seeding, reaching, mbind, async_bind.
  destruct (connecting env s) as [[[]|e] s1]; [|done].
  destruct (dropping env s1) as [[[]|e] s2]; [|done].
  rewrite populating_split. unfold mbind, async_bind.
  by destruct (reach_transactions env s2) as [[maps|e] s3].
Qed.

(** On a well-behaved server the books and the users are, at that moment,
    those of the end of the run. *)
Lemma reaching_ok (env : Env) (s : State) :
  well_behaved env →
  documents "books" (after (reaching env) s) = seeded_books (next_id s)
  ∧ documents "users" (after (reaching env) s)
    = seeded_users env (next_id s) (salts s).
Proof.
  intros (Hc & Hf & Hne). unfold after, reaching.
  rewrite (then_eq _ _ _ _ (connecting_ok _ _ Hc)).
  rewrite (then_eq _ _ _ _ (dropping_ok _ _ Hf)). simpl.
  assert (mk (dropped (db s)) (next_id s) (salts s)
             ((trace s ++ connect_events env) ++ drop_events)
          = embed (dropped (db s)) ((trace s ++ connect_events env) ++ drop_events)
                  (clean (next_id s) (salts s))) as ->.
  { unfold embed, clean, mk; simpl.
    by rewrite (left_id_L ∅ (∪)), (right_id_L [] (++)). }
  rewrite local_reach by (apply dropped_lookup; repeat constructor).
  rewrite (reach_clean env _ _ Hne).
  unfold documents, embed, after_books, after_users, mk; simpl.
  split.
  - by erewrite lookup_union_Some_l by apply lookup_insert_eq.
  - erewrite lookup_union_Some_l; [done|].
    rewrite lookup_insert_ne by done. apply lookup_insert_eq.
Qed.

(** C8, amended: the transactions of a run are created after everything
    else, and on a well-behaved server every transaction record the run
    leaves refers to a book and a user that were stored at the moment of its
    creation and still are at the end, and the book name and the borrower
    name it carries are strings of its own, equal to the name of that book
    and the full name of that user. *)
Theorem C8_snapshot_names (env : Env) (s : State) (t : obj) :
  well_behaved env →
  t ∈ documents "booktransactions" (after (seedDatabase env) s) →
  seeding env s
  = (reaching env ≫= fun maps =>
       seedTransactions env maps.1 maps.2;;
       console_log "Database seeding complete.") s
  ∧ ∃ b u, b ∈ documents "books" (after (reaching env) s)
           ∧ u ∈ documents "users" (after (reaching env) s)
           ∧ b ∈ documents "books" (after (seedDatabase env) s)
           ∧ u ∈ documents "users" (after (seedDatabase env) s)
           ∧ snapshot_of t b u.
Proof.
  intros Henv Ht. split; [apply seeding_split|].
  destruct (reaching_ok env s Henv) as [-> ->].
  rewrite final_books, final_users by done.
  rewrite final_transactions in Ht by done.
  destruct (seeded_sizes env (next_id s) (salts s)) as (_ & Hu & Hb & Hlen).
  rewrite (list_of_3 _ Hlen) in Ht.
  assert (∀ i bi ui, (i, bi, ui) ∈ [(0, 0, 0); (1, 1, 1); (2, 3, 0)] →
            seeded_books (next_id s) !!! bi ∈ seeded_books (next_id s)
            ∧ seeded_users env (next_id s) (salts s) !!! ui
              ∈ seeded_users env (next_id s) (salts s)) as Hin.
  { intros i bi ui Hi.
    split; apply list_elem_of_lookup_total_2; [rewrite Hb | rewrite Hu];
      repeat (apply elem_of_cons in Hi as [[= -> -> ->]|Hi]);
      first [lia | by apply elem_of_nil in Hi]. }
  repeat (apply elem_of_cons in Ht as [->|Ht]); [..|by apply elem_of_nil in Ht].
  - exists (seeded_books (next_id s) !!! 0),
           (seeded_users env (next_id s) (salts s) !!! 0).
    destruct (Hin 0 0 0) as [? ?]; [repeat constructor|].
    do 4 (split; [done|]).
    apply (seeded_snapshot env _ _ 0 0 0). repeat constructor.
  - exists (seeded_books (next_id s) !!! 1),
           (seeded_users env (next_id s) (salts s) !!! 1).
    destruct (Hin 1 1 1) as [? ?]; [repeat constructor|].
    do 4 (split; [done|]).
    apply (seeded_snapshot env _ _ 1 1 1). repeat constructor.
  - exists (seeded_books (next_id s) !!! 3),
           (seeded_users env (next_id s) (salts s) !!! 0).
    destruct (Hin 2 3 0) as [? ?]; [repeat constructor|].
    do 4 (split; [done|]).
    apply (seeded_snapshot env _ _ 2 3 0). repeat constructor.
Qed.

Lemma C8_snapshot_names_witness :
  seeding plain_env empty_state
  = (reaching plain_env ≫= fun maps =>
       seedTransactions plain_env maps.1 maps.2;;
       console_log "Database seeding complete.") empty_state
  ∧ ∃ b u, b ∈ documents "books" (after (reaching plain_env) empty_state)
           ∧ u ∈ documents "users" (after (reaching plain_env) empty_state)
           ∧ b ∈ documents "books" plain_run
           ∧ u ∈ documents "users" plain_run
           ∧ snapshot_of (documents "booktransactions" plain_run !!! 2) b u.
Proof.
  apply (C8_snapshot_names plain_env empty_state).
  - by repeat split.
  - apply plain_transaction. lia.
Defined.

(** ** Stored passwords (C10) *)

Lemma map_all (m : obj) (P : value → bool) :
  forallb (fun kv => P kv.2) (map_to_list m) = true →
  ∀ k v, m !! k = Some v → P v = true.
Proof.
  intros Hall k v Hk.
  apply (forallb_elem _ _ (k, v) Hall). by apply elem_of_map_to_list.
Qed.

Lemma seeded_passwords (env : Env) (n k : nat) :
  ((fun u => u !! "password") <$> seeded_users env n k)
  = [ Some (VStr (bcrypt_hash env "password123" (bcrypt_genSalt env 10 k)));
      Some (VStr (bcrypt_hash env "password456" (bcrypt_genSalt env 10 (1 + k))));
      Some (VStr (bcrypt_hash env "adminPassword" (bcrypt_genSalt env 10 (2 + k)))) ].
Proof.
  vm_cast_no_check (eq_refl ((fun u => u !! "password") <$> seeded_users env n k)).
Qed.

Lemma seeded_other_fields (env : Env) (n k : nat) :
  forallb (fun u =>
             forallb (fun kv => bool_decide (kv.2 ∉ VStr <$> plaintexts))
                     (map_to_list (delete "password" u)))
          (seeded_users env n k) = true.
Proof. vm_cast_no_check (eq_refl true). Qed.

(** C10: on a well-behaved server, with a bcrypt whose hashes are none of the
    seed passwords, the password field of each of the three stored users is
    the bcrypt hash of that user's seed password under a salt drawn for that
    user alone with 10 rounds, and no field of a stored user holds a seed
    password. *)
Theorem C10_passwords_hashed (env : Env) (s : State) :
  well_behaved env →
  (∀ p salt q, q ∈ plaintexts → bcrypt_hash env p salt ≠ q) →
  ((fun u => u !! "password") <$> documents "users" (after (seedDatabase env) s))
  = [ Some (VStr (bcrypt_hash env "password123"
                    (bcrypt_genSalt env 10 (salts s))));
      Some (VStr (bcrypt_hash env "password456"
                    (bcrypt_genSalt env 10 (1 + salts s))));
      Some (VStr (bcrypt_hash env "adminPassword"
                    (bcrypt_genSalt env 10 (2 + salts s)))) ]
  ∧ List.filter is_GenSalt (events (seedDatabase env) s)
    = [GenSalt 10; GenSalt 10; GenSalt 10]
  ∧ ∀ u f q, u ∈ documents "users" (after (seedDatabase env) s) →
             q ∈ plaintexts → u !! f ≠ Some (VStr q).
Proof.
  intros Henv Hhash. rewrite final_users, final_events by done.
  split; [apply seeded_passwords|].
  split; [unfold close_events; by destruct (close_fault env)|].
  intros u f q Hu Hq Hf.
  destruct (decide (f = "password")) as [->|Hne].
  - pose proof (seeded_passwords env (next_id s) (salts s)) as Hpw.
    apply (list_elem_of_fmap_2 (fun u => u !! "password")) in Hu.
    rewrite Hpw, Hf in Hu.
    repeat (apply elem_of_cons in Hu as [[= Hu]|Hu]);
      [..|by apply elem_of_nil in Hu]; by eapply Hhash.
  - pose proof (forallb_elem _ _ _
      (seeded_other_fields env (next_id s) (salts s)) Hu) as Hall.
    rewrite <- (lookup_delete_ne u "password" f) in Hf by done.
    pose proof (map_all _ (fun v => bool_decide (v ∉ VStr <$> plaintexts))
                  Hall f _ Hf) as Hnot.
    apply bool_decide_eq_true in Hnot. apply Hnot.
    by apply list_elem_of_fmap_2.
Qed.

Lemma C10_passwords_hashed_witness :
  ((fun u => u !! "password") <$> documents "users" plain_run)
  = [ Some (VStr (bcrypt_hash plain_env "password123"
                    (bcrypt_genSalt plain_env 10 0)));
      Some (VStr (bcrypt_hash plain_env "password456"
                    (bcrypt_genSalt plain_env 10 1)));
      Some (VStr (bcrypt_hash plain_env "adminPassword"
                    (bcrypt_genSalt plain_env 10 2))) ]
  ∧ List.filter is_GenSalt (events (seedDatabase plain_env) empty_state)
    = [GenSalt 10; GenSalt 10; GenSalt 10]
  ∧ ∀ u f q, u ∈ documents "users" plain_run →
             q ∈ plaintexts → u !! f ≠ Some (VStr q).
Proof.
  apply (C10_passwords_hashed plain_env empty_state).
  - by repeat split.
  - intros p salt q Hq. unfold plaintexts, usersData in Hq. simpl in Hq.
    repeat (apply elem_of_cons in Hq as [->|Hq]);
      [..|by apply elem_of_nil in Hq]; discriminate.
Defined.

(** ** What [insertMany] touches *)

Lemma new_documents_db (m : Model) (objs : list obj) (s : State) :
  ∃ docs s', mapM (new_document m) objs s = (Return docs, s') ∧ db s' = db s.
Proof.
  revert s. induction objs as [|o objs IH]; intros s; simpl; [by eexists _, _|].
  assert (∃ d s1, new_document m o s = (Return d, s1) ∧ db s1 = db s)
    as (d & s1 & Hd & Hs1).
  { unfold new_document. destruct (field o "_id"); by eexists _, _. }
  destruct (IH s1) as (docs & s2 & Hdocs & Hs2).
  exists (d :: docs), s2. split; [|congruence].
  rewrite (bind_Return _ _ _ _ _ Hd). by rewrite (bind_Return _ _ _ _ _ Hdocs).
Qed.

(** An ordered write changes no collection but the model's own. *)
Lemma write_ordered_frame (env : Env) (m : Model) (docs : list obj) (s : State)
    (c : string) :
  c ≠ collection m → db (write_ordered env m docs s).2 !! c = db s !! c.
Proof.
  intros Hc. revert s. induction docs as [|d docs IH]; intros s; simpl; [done|].
  destruct (conflicts _ _ _ d); [done|].
  rewrite IH. unfold set_db; simpl. by rewrite lookup_insert_ne.
Qed.

Lemma insertMany_frame (env : Env) (m : Model) (objs : list obj) (s : State)
    (c : string) :
  c ≠ collection m → db (after (insertMany env m objs) s) !! c = db s !! c.
Proof.
  intros Hc. unfold after, insertMany.
  rewrite (then_eq _ _ _ _ (emit_eq _ _)).
  destruct (new_documents_db m objs
              (mk (db s) (next_id s) (salts s)
                  (trace s ++ [InsertMany (collection m) (List.length objs)])))
    as (docs & s1 & Hdocs & Hs1).
  rewrite (bind_Return _ _ _ _ _ Hdocs). simpl in Hs1.
  destruct (forallb _ docs); [|simpl; by rewrite Hs1].
  pose proof (write_ordered_frame env m docs s1 c Hc) as Hw.
  unfold mbind, async_bind.
  destruct (write_ordered env m docs s1) as [[[]|e] s2]; simpl in *; congruence.
Qed.

Lemma new_document_eq (m : Model) (o : obj) (s : State) :
  new_document m o s
  = match field o "_id" with
    | Some i => (Return (<["_id" := i]> (build (schema m) o)), s)
    | None => (Return (<["_id" := VId (next_id s)]> (build (schema m) o)),
               mk (db s) (S (next_id s)) (salts s) (trace s))
    end.
Proof. unfold new_document. by destruct (field o "_id"). Qed.

Lemma new_documents_eq (m : Model) (objs : list obj) (s : State) :
  mapM (new_document m) objs s
  = (Return (built m (next_id s) objs),
     mk (db s) (drawn objs + next_id s) (salts s) (trace s)).
Proof.
  revert s. induction objs as [|o objs IH]; intros s; simpl; [by destruct s|].
  pose proof (new_document_eq m o s) as Ho.
  destruct (field o "_id") as [i|].
  - rewrite (bind_Return _ _ _ _ _ Ho).
    by rewrite (bind_Return _ _ _ _ _ (IH s)).
  - rewrite (bind_Return _ _ _ _ _ Ho).
    rewrite (bind_Return _ _ _ _ _ (IH _)). simpl.
    by rewrite Nat.add_succ_r.
Qed.

(** A call of [insertMany] in two steps: the documents, then the write. *)
Lemma insertMany_steps (env : Env) (m : Model) (l : list obj) (s : State) :
  insertMany env m l s
  = if forallb (valid (schema m)) (built m (next_id s) l)
    then (write_ordered env m (built m (next_id s) l);;
          mret (built m (next_id s) l))
           (mk (db s) (drawn l + next_id s) (salts s)
               (trace s ++ [InsertMany (collection m) (List.length l)]))
    else (Throw ValidationError,
          mk (db s) (drawn l + next_id s) (salts s)
             (trace s ++ [InsertMany (collection m) (List.length l)])).
Proof.
  unfold insertMany. rewrite (then_eq _ _ _ _ (emit_eq _ _)).
  rewrite (bind_Return _ _ _ _ _ (new_documents_eq _ _ _)). simpl.
  by destruct (forallb _ _).
Qed.

(** What another collection holds does not matter to an ordered write. *)
Lemma write_ordered_elsewhere (env : Env) (m : Model) (docs other : list obj)
    (s : State) (c : string) :
  c ≠ collection m →
  write_ordered env m docs (set_db <[c := other]> s)
  = ((write_ordered env m docs s).1,
     set_db <[c := other]> (write_ordered env m docs s).2).
Proof.
  intros Hc. revert s. induction docs as [|d docs IH]; intros s; simpl; [done|].
  assert (documents (collection m) (set_db <[c := other]> s)
          = documents (collection m) s) as ->.
  { unfold documents, set_db; simpl. by rewrite lookup_insert_ne. }
  destruct (conflicts _ _ _ d); [done|].
  rewrite <- IH. f_equal. unfold set_db; simpl.
  by rewrite insert_insert_ne.
Qed.

Lemma insertMany_elsewhere (env : Env) (m : Model) (l other : list obj)
    (s : State) (c : string) :
  c ≠ collection m →
  insertMany env m l (set_db <[c := other]> s)
  = ((insertMany env m l s).1,
     set_db <[c := other]> (insertMany env m l s).2).
Proof.
  intros Hc. rewrite !insertMany_steps. simpl.
  destruct (forallb _ _); [|done].
  assert (write_ordered env m (built m (next_id s) l)
            (mk (<[c := other]> (db s)) (drawn l + next_id s) (salts s)
                (trace s ++ [InsertMany (collection m) (List.length l)]))
          = ((write_ordered env m (built m (next_id s) l)
                (mk (db s) (drawn l + next_id s) (salts s)
                    (trace s ++ [InsertMany (collection m) (List.length l)]))).1,
             set_db <[c := other]>
               (write_ordered env m (built m (next_id s) l)
                  (mk (db s) (drawn l + next_id s) (salts s)
                      (trace s ++ [InsertMany (collection m) (List.length l)]))).2))
    as Hw
    by exact (write_ordered_elsewhere env m (built m (next_id s) l) other
                (mk (db s) (drawn l + next_id s) (salts s)
                    (trace s ++ [InsertMany (collection m) (List.length l)]))
                c Hc).
  unfold mbind, async_bind. rewrite Hw. clear Hw.
  by destruct (write_ordered env m _ _) as [[[]|e] s2].
Qed.

Lemma keys_free_plain (sch : Schema) (stored docs : list obj) :
  unique_paths sch = [] → keys_free sch stored docs = true.
Proof.
  intros Hu. revert stored.
  induction docs as [|d docs IH]; intros stored; simpl; [done|].
  rewrite IH. unfold key_clash. by rewrite Hu.
Qed.

(** Documents that pass the schema and repeat no [_id] and no key of a unique
    path are returned and stored after the ones already there. *)
Lemma insertMany_written (env : Env) (m : Model) (l : list obj) (s : State) :
  forallb (valid (schema m)) (built m (next_id s) l) = true →
  keys_free (schema m) (documents (collection m) s) (built m (next_id s) l) = true →
  NoDup (ids (documents (collection m) s ++ built m (next_id s) l)) →
  (insertMany env m l s).1 = Return (built m (next_id s) l)
  ∧ documents (collection m) (after (insertMany env m l) s)
    = (documents (collection m) s ++ built m (next_id s) l)%list.
Proof.
  intros Hvalid Hkeys Hids. unfold after. rewrite insertMany_steps, Hvalid.
  destruct (built m (next_id s) l) as [|d docs] eqn:Hb.
  { simpl. by rewrite (right_id_L [] (++)). }
  rewrite (bind_Return _ _ _ _ _
             (write_ordered_fresh env m (d :: docs)
                (mk (db s) (drawn l + next_id s) (salts s)
                    (trace s ++ [InsertMany (collection m) (List.length l)]))
                ltac:(done) Hkeys Hids)).
  split; [done|]. unfold documents at 1. simpl. by rewrite lookup_insert_eq.
Qed.

(** ** Issue transactions and the stock (C4, C7) *)

Lemma transactions_stage :
  documents "booktransactions" at_transactions = []
  ∧ List.length (documents "booktransactions" past_transactions) = 3
  ∧ (documents "booktransactions" past_transactions !!! 0) !! "transactionType"
    = Some (VStr "Issue")
  ∧ (documents "booktransactions" past_transactions !!! 0) !! "bookId"
    = Some (VId 11)
  ∧ copies_of (VId 11) at_transactions = [Some (VNum 5)]
  ∧ copies_of (VId 11) past_transactions = [Some (VNum 5)].
Proof.
  vm_cast_no_check
    (conj (eq_refl (@nil obj))
      (conj (eq_refl 3)
        (conj (eq_refl (Some (VStr "Issue")))
          (conj (eq_refl (Some (VId 11)))
            (conj (eq_refl [Some (VNum 5)]) (eq_refl [Some (VNum 5)])))))).
Qed.

(** C4, as stated, fails: the transactions stage of the script creates an
    Issue transaction for the book with [_id] 11, which has five copies
    before the stage and five after it. *)
Lemma C4_issue_keeps_count : ¬ issue_decrements at_transactions past_transactions.
Proof.
  intros H.
  destruct transactions_stage as (Hnone & Hlen & Htype & Hbook & Hbefore & Hafter).
  specialize (H (documents "booktransactions" past_transactions !!! 0) (VId 11) 5%Z).
  assert ([Some (VNum 5)] = [Some (VNum (5 - 1))]) as [=].
  rewrite <- Hafter.
  apply H; [|rewrite Hnone; apply not_elem_of_nil
            |exact Htype|exact Hbook|exact Hbefore].
  apply list_elem_of_lookup_total_2. rewrite Hlen. lia.
Qed.

Lemma seedTransactions_frame (env : Env) (bookMap userMap : obj) (s : State)
    (c : string) :
  c ≠ "booktransactions" →
  db (after (seedTransactions env bookMap userMap) s) !! c = db s !! c.
Proof.
  intros Hc. unfold after, seedTransactions, console_log.
  rewrite (then_eq _ _ _ _ (emit_eq _ _)).
  pose proof (insertMany_frame env BookTransaction
                (transactionsData bookMap userMap)
                (mk (db s) (next_id s) (salts s)
                    (trace s ++ [Console "Seeding transactions..."])) c Hc) as Hf.
  unfold after in Hf. unfold mbind, async_bind.
  by destruct (insertMany env BookTransaction _ _) as [[docs|e] s1].
Qed.

(** C4, amended: creating transaction records, Issue and Reservation alike,
    leaves the books and the users collections as they are, so every book
    keeps its count; this holds for any call of the BookTransaction model
    and for the transactions stage of the script.  (The script has no
    operation that returns a book.) *)
Theorem C4_transactions_leave_counts (env : Env) (bookMap userMap : obj)
    (l : list obj) (s : State) :
  documents "books" (after (insertMany env BookTransaction l) s)
  = documents "books" s
  ∧ documents "users" (after (insertMany env BookTransaction l) s)
    = documents "users" s
  ∧ documents "books" (after (seedTransactions env bookMap userMap) s)
    = documents "books" s
  ∧ documents "users" (after (seedTransactions env bookMap userMap) s)
    = documents "users" s
  ∧ ∀ i, copies_of i (after (seedTransactions env bookMap userMap) s)
         = copies_of i s.
Proof.
  assert (∀ c, c ≠ "booktransactions" →
            documents c (after (seedTransactions env bookMap userMap) s)
            = documents c s)
    as Hs by (intros c Hc; unfold documents; by rewrite seedTransactions_frame).
  assert (∀ c, c ≠ "booktransactions" →
            documents c (after (insertMany env BookTransaction l) s) = documents c s)
    as Hi by (intros c Hc; unfold documents; by rewrite insertMany_frame).
  repeat split; [by apply Hi..|by apply Hs|by apply Hs|].
  intros i. unfold copies_of. by rewrite Hs.
Qed.

Lemma stocked_issue :
  (documents "books" stocked !!! 5) !! "_id" = Some (VId 19)
  ∧ (documents "books" stocked !!! 5) !! "bookCountAvailable" = Some (VNum 0)
  ∧ (documents "users" stocked !!! 0) !! "_id" = Some (VId 8)
  ∧ returned (insertMany plain_env BookTransaction [issue_out_of_stock] stocked).1
    = true
  ∧ List.length (documents "booktransactions" stocked) = 3
  ∧ List.length (documents "booktransactions"
                   (after (insertMany plain_env BookTransaction [issue_out_of_stock])
                          stocked))
    = 4.
Proof.
  vm_cast_no_check
    (conj (eq_refl (Some (VId 19)))
      (conj (eq_refl (Some (VNum 0)))
        (conj (eq_refl (Some (VId 8)))
          (conj (eq_refl true) (conj (eq_refl 3) (eq_refl 4)))))).
Qed.

(** C7, as stated, fails: issuing the book of which no copy is left goes
    through and adds a transaction record. *)
Lemma C7_issue_goes_through :
  (documents "books" stocked !!! 5) !! "_id" = issue_out_of_stock !! "bookId"
  ∧ (documents "books" stocked !!! 5) !! "bookCountAvailable" = Some (VNum 0)
  ∧ ¬ fails_unchanged (insertMany plain_env BookTransaction [issue_out_of_stock])
        stocked.
Proof.
  destruct stocked_issue as (Hid & Hcount & _ & Hret & _).
  split; [|split; [done|]].
  - rewrite Hid. vm_cast_no_check (eq_refl (Some (VId 19))).
  - intros [Hfail _]. congruence.
Qed.

(** C7, amended: what a call of the BookTransaction model does is decided
    without the books collection.  (1) Whatever that collection is replaced
    with, the counts of its books included, the call has the same outcome
    and leaves the same transaction records.  (2) The call leaves the books
    collection as it is.  (3) Records that pass the schema as they are given
    and repeat no [_id] are all written after the ones already there,
    whatever the count of the book they name.  There is no out-of-stock
    error. *)
Theorem C7_issue_ignores_stock (env : Env) (l shelved : list obj) (s : State) :
  ((insertMany env BookTransaction l (set_db <["books" := shelved]> s)).1
   = (insertMany env BookTransaction l s).1
   ∧ documents "booktransactions"
       (after (insertMany env BookTransaction l) (set_db <["books" := shelved]> s))
     = documents "booktransactions" (after (insertMany env BookTransaction l) s))
  ∧ documents "books" (after (insertMany env BookTransaction l) s)
    = documents "books" s
  ∧ (forallb (valid BookTransactionSchema) (built BookTransaction (next_id s) l)
     = true →
     NoDup (ids (documents "booktransactions" s
                   ++ built BookTransaction (next_id s) l)) →
     (insertMany env BookTransaction l s).1
     = Return (built BookTransaction (next_id s) l)
     ∧ documents "booktransactions" (after (insertMany env BookTransaction l) s)
       = (documents "booktransactions" s
            ++ built BookTransaction (next_id s) l)%list).
Proof.
  split; [|split].
  - unfold after.
    rewrite (insertMany_elsewhere env BookTransaction l shelved s "books")
      by done.
    split; [done|]. unfold documents, set_db. simpl.
    by rewrite lookup_insert_ne.
  - unfold documents. by rewrite insertMany_frame.
  - intros Hvalid Hids.
    apply (insertMany_written env BookTransaction l s Hvalid); [|done].
    by apply keys_free_plain.
Qed.

Lemma stocked_issue_fresh :
  forallb (valid BookTransactionSchema)
    (built BookTransaction (next_id stocked) [issue_out_of_stock]) = true
  ∧ NoDup (ids (documents "booktransactions" stocked
                  ++ built BookTransaction (next_id stocked) [issue_out_of_stock])).
Proof.
  split; [vm_cast_no_check (eq_refl true)|].
  refine (bool_decide_unpack _ _). vm_cast_no_check I.
Qed.

Lemma C7_issue_ignores_stock_witness :
  (insertMany plain_env BookTransaction [issue_out_of_stock] stocked).1
  = Return (built BookTransaction (next_id stocked) [issue_out_of_stock])
  ∧ documents "booktransactions"
      (after (insertMany plain_env BookTransaction [issue_out_of_stock]) stocked)
    = (documents "booktransactions" stocked
         ++ built BookTransaction (next_id stocked) [issue_out_of_stock])%list.
Proof.
  refine (proj2 (proj2 (C7_issue_ignores_stock plain_env [issue_out_of_stock]
                          [] stocked)) _ _).
  - exact (proj1 stocked_issue_fresh).
  - exact (proj2 stocked_issue_fresh).
Defined.

(** ** Unique paths (C6) *)

Lemma key_clash_true (indexed : string → bool) (sch : Schema)
    (stored : list obj) (d d' : obj) (k : string) :
  indexed k = true →
  k ∈ unique_paths sch → d' ∈ stored → d' !! k = d !! k →
  key_clash indexed sch stored d = true.
Proof.
  intros Hindex Hk Hd' Heq. unfold key_clash.
  apply existsb_exists. exists k. split; [by apply list_elem_of_In|].
  rewrite Hindex, andb_true_r.
  apply existsb_exists. exists d'. split; [by apply list_elem_of_In|].
  by apply bool_decide_eq_true.
Qed.

(** The ordered write stops with a duplicate-key error at or before a
    document that repeats a key of a unique index the server has, and writes
    the documents before that point only. *)
Lemma write_ordered_duplicate (env : Env) (m : Model) (docs : list obj)
    (s : State) (i : nat) (d d' : obj) (k : string) :
  unique_index env (collection m) k = true →
  docs !! i = Some d →
  k ∈ unique_paths (schema m) →
  d' ∈ (documents (collection m) s ++ take i docs)%list →
  d' !! k = d !! k →
  ∃ j s', (j ≤ i)%nat
    ∧ write_ordered env m docs s = (Throw DuplicateKey, s')
    ∧ documents (collection m) s'
      = (documents (collection m) s ++ take j docs)%list.
Proof.
  intros Hindex Hd Hk Hd' Heq. revert s i Hd Hd'.
  induction docs as [|d0 docs IH]; intros s i Hd Hd'; [done|]. simpl.
  destruct (conflicts _ (schema m) (documents (collection m) s) d0) eqn:Hc.
  { exists 0, s. split; [lia|]. split; [done|]. simpl.
    by rewrite (right_id_L [] (++)). }
  destruct i as [|i]; simpl in Hd, Hd'.
  - injection Hd as ->. rewrite (right_id_L [] (++)) in Hd'.
    unfold conflicts in Hc.
    rewrite (key_clash_true _ _ _ _ _ _ Hindex Hk Hd' Heq) in Hc.
    by rewrite orb_true_r in Hc.
  - destruct (IH (set_db <[collection m :=
                      (documents (collection m) s ++ [d0])%list]> s) i Hd)
      as (j & s' & Hj & Hw & Hdocs).
    { rewrite documents_set_db, <- (assoc_L (++)). exact Hd'. }
    exists (S j), s'. split; [lia|]. split; [done|].
    rewrite Hdocs, documents_set_db, <- (assoc_L (++)). done.
Qed.

Lemma unindexed_duplicate :
  (documents "bookcategories" unindexed_run !!! 0) !! "categoryName"
  = Some (VStr "Fiction")
  ∧ duplicate_category !! "categoryName" = Some (VStr "Fiction")
  ∧ returned (insertMany unindexed_env BookCategory [duplicate_category]
                unindexed_run).1 = true
  ∧ ((fun c => c !! "categoryName") <$>
       documents "bookcategories"
         (after (insertMany unindexed_env BookCategory [duplicate_category])
                unindexed_run))
    = [ Some (VStr "Fiction"); Some (VStr "Science Fiction");
        Some (VStr "Mystery"); Some (VStr "Thriller");
        Some (VStr "Non-Fiction"); Some (VStr "Biography");
        Some (VStr "History"); Some (VStr "Technology");
        Some (VStr "Fiction") ].
Proof.
  vm_cast_no_check
    (conj (eq_refl (Some (VStr "Fiction")))
      (conj (eq_refl (Some (VStr "Fiction")))
        (conj (eq_refl true)
              (eq_refl [ Some (VStr "Fiction"); Some (VStr "Science Fiction");
                         Some (VStr "Mystery"); Some (VStr "Thriller");
                         Some (VStr "Non-Fiction"); Some (VStr "Biography");
                         Some (VStr "History"); Some (VStr "Technology");
                         Some (VStr "Fiction") ])))).
Qed.

(** C6 fails on the code: the schemas declare the three paths unique, but
    the script drops the collections with their indexes and waits for no
    index to be built, and on a server that has no unique index on the
    categories when the write arrives, a second category of the name Fiction
    is not refused: it is stored beside the first. *)
Lemma C6_duplicate_stored :
  (documents "bookcategories" unindexed_run !!! 0) !! "categoryName"
  = duplicate_category !! "categoryName"
  ∧ ¬ refused_as_duplicate
        (insertMany unindexed_env BookCategory [duplicate_category]) unindexed_run
  ∧ ((fun c => c !! "categoryName") <$>
       documents "bookcategories"
         (after (insertMany unindexed_env BookCategory [duplicate_category])
                unindexed_run))
    = [ Some (VStr "Fiction"); Some (VStr "Science Fiction");
        Some (VStr "Mystery"); Some (VStr "Thriller");
        Some (VStr "Non-Fiction"); Some (VStr "Biography");
        Some (VStr "History"); Some (VStr "Technology");
        Some (VStr "Fiction") ].
Proof.
  destruct unindexed_duplicate as (Hfirst & Hdup & Hret & Hall).
  split; [congruence|]. split; [|exact Hall].
  intros Hfail.
  assert (returned (Throw DuplicateKey : Outcome (list obj)) = true) as Hc;
    [|discriminate Hc].
  rewrite <- Hfail. exact Hret.
Qed.

(** ** Drops come first (C9) *)

Lemma grows_ret {A} (a : A) : grows (mret a).
Proof. intros s. exists []. simpl. by rewrite (right_id_L [] (++)). Qed.

Lemma grows_throw {A} (e : Error) : grows (@throw A e).
Proof. intros s. exists []. simpl. by rewrite (right_id_L [] (++)). Qed.

Lemma grows_emit (e : Event) : grows (emit e).
Proof. intros s. by exists [e]. Qed.

Lemma grows_bind {A B} (m : Async A) (f : A → Async B) :
  grows m → (∀ a, grows (f a)) → grows (m ≫= f).
Proof.
  intros Hm Hf s. destruct (Hm s) as [l Hl]. unfold mbind, async_bind.
  destruct (m s) as [[a|e] s1]; simpl in *; [|by exists l].
  destruct (Hf a s1) as [l' Hl']. exists (l ++ l')%list.
  by rewrite Hl', Hl, (assoc_L (++)).
Qed.

Lemma grows_mapM {A B} (f : A → Async B) (l : list A) :
  (∀ a, grows (f a)) → grows (mapM f l).
Proof.
  intros Hf. induction l as [|a l IH]; simpl; [apply grows_ret|].
  apply grows_bind; [apply Hf|intros b].
  apply grows_bind; [apply IH|intros k; apply grows_ret].
Qed.

Lemma grows_new_document (m : Model) (o : obj) : grows (new_document m o).
Proof.
  intros s. exists []. rewrite new_document_eq, (right_id_L [] (++)).
  by destruct (field o "_id").
Qed.

Lemma grows_write_ordered (env : Env) (m : Model) (docs : list obj) :
  grows (write_ordered env m docs).
Proof.
  induction docs as [|d docs IH]; [apply (grows_ret tt)|]. intros s. simpl.
  destruct (conflicts _ _ _ d);
    [exists []; simpl; by rewrite (right_id_L [] (++))|].
  destruct (IH (set_db <[collection m := (documents (collection m) s ++ [d])%list]> s))
    as [l Hl].
  by exists l.
Qed.

Lemma grows_insertMany (env : Env) (m : Model) (objs : list obj) :
  grows (insertMany env m objs).
Proof.
  unfold insertMany.
  apply grows_bind; [apply grows_emit|intros _].
  apply grows_bind; [apply grows_mapM, grows_new_document|intros docs].
  destruct (forallb _ docs); [|apply grows_throw].
  apply grows_bind; [apply grows_write_ordered|intros; apply grows_ret].
Qed.

Lemma grows_newUser (env : Env) (u : obj) : grows (newUser env u).
Proof.
  unfold newUser, hashPassword, genSalt.
  apply grows_bind; [|intros; apply grows_new_document].
  apply grows_bind.
  - apply grows_bind; [apply grows_emit|intros _ s].
    exists []. simpl. by rewrite (right_id_L [] (++)).
  - intros salt. destruct (get u "password");
      first [apply grows_throw | apply grows_ret].
Qed.

Lemma grows_populating (env : Env) : grows (populating env).
Proof.
  unfold populating, seedCategories, seedUsers, seedBooks, seedTransactions,
    console_log.
  repeat lazymatch goal with
    | |- grows (mret _) => apply grows_ret
    | |- grows (emit _) => apply grows_emit
    | |- grows (insertMany _ _ _) => apply grows_insertMany
    | |- grows (mapM _ _) => apply grows_mapM; intros; apply grows_newUser
    | |- grows (_ ≫= _) => apply grows_bind; [|intros]
    end.
Qed.

(** One drop: thrown on when the server refuses it with a code other than 26,
    and otherwise gone through, leaving a part of the database. *)
Lemma drop_step (env : Env) (c : string) (s : State) :
  (∃ e, try_catch (dropCollection env c) unless_missing s
        = (Throw e, mk (db s) (next_id s) (salts s) (trace s ++ [DropCollection c]))
        ∧ refuses env c)
  ∨ (∃ d', d' ⊆ db s
       ∧ try_catch (dropCollection env c) unless_missing s
         = (Return tt, mk d' (next_id s) (salts s) (trace s ++ [DropCollection c]))
       ∧ ¬ refuses env c).
Proof.
  destruct (drop_fault env c) as [e|] eqn:Hf.
  - destruct (code_differs e 26) eqn:He.
    + left. exists e. split; [by apply drop_refused|by exists e].
    + right. exists (db s). split; [done|]. split; [by apply (drop_refused_26 _ _ _ e)|].
      intros (e' & He' & Hd). congruence.
  - right. exists (delete c (db s)). split; [apply delete_subseteq|].
    split; [by apply drop_unless_missing|].
    intros (e' & He' & Hd). congruence.
Qed.

Ltac no_insert_list :=
  let c := fresh in let n := fresh in let H := fresh in
  intros c n H; apply list_elem_of_In in H; simpl in H;
  repeat (destruct H as [H|H]; [discriminate H|]); exact H.

(** The four drops: either one of them is refused and thrown on, after which
    nothing has been inserted, or all four go through. *)
Lemma dropping_cases (env : Env) (s : State) :
  (∃ e l d',
      dropping env s = (Throw e, mk d' (next_id s) (salts s) (trace s ++ l))
      ∧ no_insert l ∧ d' ⊆ db s)
  ∨ (∃ d',
        dropping env s
        = (Return tt, mk d' (next_id s) (salts s) (trace s ++ drop_events))
        ∧ d' ⊆ db s
        ∧ ∀ c, c ∈ ["books"; "bookcategories"; "booktransactions"; "users"] →
               ¬ refuses env c).
Proof.
  unfold dropping, console_log.
  rewrite (then_eq _ _ _ _ (emit_eq _ _)).
  destruct (drop_step env "books"
              (mk (db s) (next_id s) (salts s)
                  (trace s ++ [Console "Dropping existing collections..."])))
    as [(e & Hrun & _)|(d1 & Hd1 & Hrun & Hn1)]; simpl in Hrun.
  { left. rewrite (bind_Throw _ _ _ _ _ Hrun). eexists e, _, (db s).
    rewrite <- (assoc_L (++)). split; [done|]. split; [no_insert_list|done]. }
  rewrite (then_eq _ _ _ _ Hrun). clear Hrun.
  destruct (drop_step env "bookcategories"
              (mk d1 (next_id s) (salts s)
                  ((trace s ++ [Console "Dropping existing collections..."])
                     ++ [DropCollection "books"])))
    as [(e & Hrun & _)|(d2 & Hd2 & Hrun & Hn2)]; simpl in *.
  { left. rewrite (bind_Throw _ _ _ _ _ Hrun). eexists e, _, d1.
    rewrite <- !(assoc_L (++)). split; [done|]. split; [no_insert_list|done]. }
  rewrite (then_eq _ _ _ _ Hrun). clear Hrun.
  destruct (drop_step env "booktransactions"
              (mk d2 (next_id s) (salts s)
                  (((trace s ++ [Console "Dropping existing collections..."])
                      ++ [DropCollection "books"])
                     ++ [DropCollection "bookcategories"])))
    as [(e & Hrun & _)|(d3 & Hd3 & Hrun & Hn3)]; simpl in *.
  { left. rewrite (bind_Throw _ _ _ _ _ Hrun). eexists e, _, d2.
    rewrite <- !(assoc_L (++)). split; [done|].
    split; [no_insert_list|by etrans]. }
  rewrite (then_eq _ _ _ _ Hrun). clear Hrun.
  destruct (drop_step env "users"
              (mk d3 (next_id s) (salts s)
                  ((((trace s ++ [Console "Dropping existing collections..."])
                       ++ [DropCollection "books"])
                      ++ [DropCollection "bookcategories"])
                     ++ [DropCollection "booktransactions"])))
    as [(e & Hrun & _)|(d4 & Hd4 & Hrun & Hn4)]; simpl in *.
  { left. rewrite (bind_Throw _ _ _ _ _ Hrun). eexists e, _, d3.
    rewrite <- !(assoc_L (++)). split; [done|].
    split; [no_insert_list|by do 2 etrans]. }
  rewrite (then_eq _ _ _ _ Hrun). clear Hrun.
  right. exists d4. rewrite emit_eq. simpl. rewrite <- !(assoc_L (++)).
  split; [done|]. split; [by do 3 etrans|].
  intros c Hc.
  repeat (apply elem_of_cons in Hc as [->|Hc]); [done..|by apply elem_of_nil in Hc].
Qed.

Lemma events_eq {A} (m : Async A) (s : State) (l : list Event) :
  trace (m s).2 = (trace s ++ l)%list → events m s = l.
Proof. intros H. unfold events, after. by rewrite H, drop_app_length. Qed.

Lemma no_insert_app (l l' : list Event) :
  no_insert l → no_insert l' → no_insert (l ++ l').
Proof.
  intros Hl Hl' c n [Hin|Hin]%elem_of_app; [by apply (Hl c n)|by apply (Hl' c n)].
Qed.

Lemma no_insert_close (env : Env) : no_insert (close_events env).
Proof. unfold close_events. destruct (close_fault env); no_insert_list. Qed.

(** A run whose [try] block throws: the error is logged, the connection is
    closed. *)
Lemma seedDatabase_thrown (env : Env) (s s1 : State) (e : Error) :
  seeding env s = (Throw e, s1) →
  seedDatabase env s
  = (settled env,
     mk (db s1) (next_id s1) (salts s1)
        (trace s1 ++ [ConsoleError "Error seeding database:" e]
                  ++ close_events env)).
Proof.
  intros Hrun. unfold seedDatabase.
  rewrite (finally_closing env _ s
             (mk (db s1) (next_id s1) (salts s1)
                 (trace s1 ++ [ConsoleError "Error seeding database:" e]))).
  - simpl. by rewrite <- (assoc_L (++)).
  - unfold try_catch. by rewrite Hrun.
Qed.

Lemma seedDatabase_returned (env : Env) (s s1 : State) :
  seeding env s = (Return tt, s1) →
  seedDatabase env s
  = (settled env,
     mk (db s1) (next_id s1) (salts s1) (trace s1 ++ close_events env)).
Proof.
  intros Hrun. unfold seedDatabase. apply finally_closing.
  unfold try_catch. by rewrite Hrun.
Qed.

(** A run that cannot connect. *)
Lemma seedDatabase_unconnected (env : Env) (s : State) (e : Error) :
  connect_fault env = Some e →
  seedDatabase env s
  = (settled env,
     mk (db s) (next_id s) (salts s)
        (trace s ++ [Console "Connecting to database...";
                     Console ("MONGO_URL: " ++ MONGO_URL env);
                     Connect (MONGO_URL env);
                     ConsoleError "Error seeding database:" e]
                 ++ close_events env)).
Proof.
  intros Hc.
  rewrite (seedDatabase_thrown env s
             (mk (db s) (next_id s) (salts s)
                 (trace s ++ [Console "Connecting to database...";
                              Console ("MONGO_URL: " ++ MONGO_URL env);
                              Connect (MONGO_URL env)])) e).
  - simpl. by rewrite <- !(assoc_L (++)).
  - unfold seeding. by rewrite (bind_Throw _ _ _ _ _ (connecting_refused _ _ _ Hc)).
Qed.

(** Every run: either it stops before the population stage, having inserted
    nothing and reported an error, or it has connected and gone through the
    four drops, none of them refused, before anything else. *)
Lemma seedDatabase_cases (env : Env) (s : State) :
  (no_insert (events (seedDatabase env) s)
   ∧ (∃ e, ConsoleError "Error seeding database:" e ∈ events (seedDatabase env) s)
   ∧ db (after (seedDatabase env) s) ⊆ db s)
  ∨ ((∃ rest, events (seedDatabase env) s
              = (connect_events env ++ drop_events ++ rest)%list)
     ∧ connect_fault env = None
     ∧ ∀ c, c ∈ ["books"; "bookcategories"; "booktransactions"; "users"] →
            ¬ refuses env c).
Proof.
  destruct (connect_fault env) as [e|] eqn:Hc.
  { left. pose proof (seedDatabase_unconnected env s e Hc) as Hrun.
    rewrite (events_eq _ _ _ (f_equal (fun r => trace r.2) Hrun)).
    unfold after. rewrite Hrun. simpl.
    split; [|split; [|done]].
    - change (no_insert
                ([Console "Connecting to database...";
                  Console ("MONGO_URL: " ++ MONGO_URL env);
                  Connect (MONGO_URL env);
                  ConsoleError "Error seeding database:" e]
                   ++ close_events env)).
      apply no_insert_app; [no_insert_list|apply no_insert_close].
    - exists e. do 3 (apply elem_of_cons; right). apply elem_of_cons. by left. }
  pose proof (connecting_ok env s Hc) as Hconn.
  destruct (dropping_cases env
              (mk (db s) (next_id s) (salts s) (trace s ++ connect_events env)))
    as [(e & l & d' & Hdrop & Hl & Hd')|(d' & Hdrop & Hd' & Hnone)]; simpl in *.
  { left.
    assert (seedDatabase env s
            = (settled env,
               mk d' (next_id s) (salts s)
                  (trace s ++ connect_events env ++ l
                     ++ [ConsoleError "Error seeding database:" e]
                     ++ close_events env)))
      as Hrun.
    { rewrite (seedDatabase_thrown env s
                 (mk d' (next_id s) (salts s)
                     ((trace s ++ connect_events env) ++ l)) e).
      - simpl. by rewrite <- !(assoc_L (++)).
      - unfold seeding.
        by rewrite (then_eq _ _ _ _ Hconn), (bind_Throw _ _ _ _ _ Hdrop). }
    rewrite (events_eq _ _ _ (f_equal (fun r => trace r.2) Hrun)).
    unfold after. rewrite Hrun. simpl.
    split; [|split; [|done]].
    - change (no_insert
                (connect_events env ++ l
                   ++ [ConsoleError "Error seeding database:" e]
                   ++ close_events env)).
      apply no_insert_app; [unfold connect_events; no_insert_list|].
      apply no_insert_app; [done|].
      apply no_insert_app; [no_insert_list|apply no_insert_close].
    - exists e. repeat (apply elem_of_cons; right).
      apply elem_of_app. right. apply elem_of_cons. by left. }
  right. split; [|done].
  destruct (grows_populating env
              (mk d' (next_id s) (salts s)
                  ((trace s ++ connect_events env) ++ drop_events)))
    as [l Hl]; simpl in Hl.
  assert (∃ rest, trace (seedDatabase env s).2
                  = (trace s ++ connect_events env ++ drop_events ++ rest)%list)
    as [rest Hrest]; [|exists rest; by apply events_eq].
  destruct (populating env
              (mk d' (next_id s) (salts s)
                  ((trace s ++ connect_events env) ++ drop_events)))
    as [[[]|e] s3] eqn:Hpop; simpl in Hl.
  - exists (l ++ close_events env)%list.
    rewrite (seedDatabase_returned env s s3).
    + simpl. rewrite Hl. by rewrite <- !(assoc_L (++)).
    + unfold seeding.
      by rewrite (then_eq _ _ _ _ Hconn), (then_eq _ _ _ _ Hdrop).
  - exists (l ++ [ConsoleError "Error seeding database:" e]
              ++ close_events env)%list.
    rewrite (seedDatabase_thrown env s s3 e).
    + simpl. rewrite Hl. by rewrite <- !(assoc_L (++)).
    + unfold seeding.
      by rewrite (then_eq _ _ _ _ Hconn), (then_eq _ _ _ _ Hdrop).
Qed.

(** C9: (1) a run that inserts anything has first connected and called the
    four drops, in the order books, bookcategories, booktransactions, users;
    (2) on a well-behaved server the four collections end up as they do from
    an empty database, so no record that was there before survives, whether
    or not each collection existed; (3) dropping a collection that does not
    exist raises the error with code 26, which the script swallows; (4) when
    the server refuses one of the four drops with another error, the run
    inserts nothing, reports an error and leaves at most what was there. *)
Theorem C9_drops_come_first (env : Env) (s : State) :
  (no_insert (events (seedDatabase env) s)
   ∨ ∃ rest, events (seedDatabase env) s
             = (connect_events env ++ drop_events ++ rest)%list)
  ∧ (well_behaved env →
     ∀ c, c ∈ ["books"; "bookcategories"; "booktransactions"; "users"] →
          documents c (after (seedDatabase env) s)
          = documents c (after (seedDatabase env) (clean (next_id s) (salts s))))
  ∧ (well_behaved env →
     ∀ c, db s !! c = None →
          dropCollection env c s
          = (Throw NamespaceNotFound,
             mk (db s) (next_id s) (salts s) (trace s ++ [DropCollection c]))
          ∧ ecode NamespaceNotFound = Some 26%Z
          ∧ try_catch (dropCollection env c) unless_missing s
            = (Return tt,
               mk (db s) (next_id s) (salts s) (trace s ++ [DropCollection c])))
  ∧ (∀ c, c ∈ ["books"; "bookcategories"; "booktransactions"; "users"] →
          refuses env c →
          no_insert (events (seedDatabase env) s)
          ∧ (∃ e, ConsoleError "Error seeding database:" e
                  ∈ events (seedDatabase env) s)
          ∧ db (after (seedDatabase env) s) ⊆ db s).
Proof.
  split; [|split; [|split]].
  - destruct (seedDatabase_cases env s) as [(Hno & _)|(Hrest & _)]; [by left|by right].
  - intros Henv c Hc.
    repeat (apply elem_of_cons in Hc as [->|Hc]); [..|by apply elem_of_nil in Hc].
    + by rewrite !final_books.
    + by rewrite !final_categories.
    + by rewrite !final_transactions.
    + by rewrite !final_users.
  - intros (_ & Hf & _) c Hc. split; [|split; [done|]].
    + unfold dropCollection. rewrite (then_eq _ _ _ _ (emit_eq _ _)), Hf.
      unfold server_drop. simpl. by rewrite Hc.
    + rewrite (drop_unless_missing _ _ _ (Hf c)). by rewrite delete_id.
  - intros c Hc Href.
    destruct (seedDatabase_cases env s) as [Hstop|(_ & _ & Hnone)]; [done|].
    by destruct (Hnone c Hc).
Qed.

Lemma C9_drops_come_first_witness :
  documents "books" (after (seedDatabase plain_env) shelf)
  = documents "books"
      (after (seedDatabase plain_env) (clean (next_id shelf) (salts shelf)))
  ∧ no_insert (events (seedDatabase refusing_env) shelf)
  ∧ (∃ e, ConsoleError "Error seeding database:" e
          ∈ events (seedDatabase refusing_env) shelf)
  ∧ db (after (seedDatabase refusing_env) shelf) ⊆ db shelf.
Proof.
  split.
  - refine (proj1 (proj2 (C9_drops_come_first plain_env shelf)) _ "books" _).
    + by repeat split.
    + repeat constructor.
  - refine (proj2 (proj2 (proj2 (C9_drops_come_first refusing_env shelf)))
              "users" _ _).
    + repeat constructor.
    + exists Unauthorized. split; reflexivity.
Defined.

(** * Further properties of the script *)

(** ** Runs as a whole *)

Lemma grows_try_catch {A} (body : Async A) (handler : Error → Async A) :
  grows body → (∀ e, grows (handler e)) → grows (try_catch body handler).
Proof.
  intros Hb Hh s. destruct (Hb s) as [l Hl]. unfold try_catch.
  destruct (body s) as [[a|e] s1]; simpl in *; [by exists l|].
  destruct (Hh e s1) as [l' Hl']. exists (l ++ l')%list.
  by rewrite Hl', Hl, (assoc_L (++)).
Qed.

Lemma grows_tolerant_drop (env : Env) (c : string) :
  grows (try_catch (dropCollection env c) unless_missing).
Proof.
  intros s. destruct (drop_step env c s) as [(e & -> & _)|(d' & _ & -> & _)];
    by exists [DropCollection c].
Qed.

Lemma grows_seeding (env : Env) : grows (seeding env).
Proof.
  unfold seeding, connecting, connect, dropping, console_log.
  repeat lazymatch goal with
    | |- grows (mret _) => apply grows_ret
    | |- grows (throw _) => apply grows_throw
    | |- grows (emit _) => apply grows_emit
    | |- grows (try_catch _ _) => apply grows_tolerant_drop
    | |- grows (populating _) => apply grows_populating
    | |- grows (match ?x with _ => _ end) => destruct x
    | |- grows (_ ≫= _) => apply grows_bind; [|intros]
    end.
Qed.

(** X1: an error inside the [try] block never escapes, and the connection
    is closed at the end of every run.  It is closing that decides how the
    promise of [seedDatabase] settles: when closing succeeds the promise is
    fulfilled and the last two events are the closing and its log line; when
    closing fails the promise is rejected with that error, the closing is
    the last event and the line is not logged. *)
Theorem seedDatabase_settles (env : Env) (s : State) :
  match close_fault env with
  | None =>
      (seedDatabase env s).1 = Return tt
      ∧ ∃ l, events (seedDatabase env) s
             = (l ++ [Close; Console "Database connection closed."])%list
  | Some e =>
      (seedDatabase env s).1 = Throw e
      ∧ ∃ l, events (seedDatabase env) s = (l ++ [Close])%list
  end.
Proof.
  assert (∃ l, seedDatabase env s
               = (settled env,
                  mk (db (seedDatabase env s).2) (next_id (seedDatabase env s).2)
                     (salts (seedDatabase env s).2)
                     (trace s ++ l ++ close_events env))) as (l & Hrun).
  { destruct (grows_seeding env s) as [l Hl].
    destruct (seeding env s) as [[[]|e] s1] eqn:Hseed; simpl in Hl.
    - exists l. rewrite (seedDatabase_returned env s s1 Hseed). simpl.
      by rewrite Hl, <- (assoc_L (++)).
    - exists (l ++ [ConsoleError "Error seeding database:" e])%list.
      rewrite (seedDatabase_thrown env s s1 e Hseed). simpl.
      by rewrite Hl, <- !(assoc_L (++)). }
  pose proof (f_equal fst Hrun) as Hout.
  pose proof (events_eq _ _ _ (f_equal (fun r => trace r.2) Hrun)) as Hev.
  simpl in Hout, Hev. unfold settled in Hout. unfold close_events in Hev.
  destruct (close_fault env) as [e|]; (split; [exact Hout|by exists l]).
Qed.

(** X2: when the connection fails, nothing is dropped and nothing is
    inserted: the database is as it was, and the run logs the error of the
    connection and closes. *)
Theorem seedDatabase_offline (env : Env) (s : State) (e : Error) :
  connect_fault env = Some e →
  seedDatabase env s
  = (settled env,
     mk (db s) (next_id s) (salts s)
        (trace s ++ [Console "Connecting to database...";
                     Console ("MONGO_URL: " ++ MONGO_URL env);
                     Connect (MONGO_URL env);
                     ConsoleError "Error seeding database:" e]
                 ++ close_events env)).
Proof. apply seedDatabase_unconnected. Qed.

Lemma seedDatabase_offline_witness :
  seedDatabase offline_env with_reviews
  = (settled offline_env,
     mk (db with_reviews) (next_id with_reviews) (salts with_reviews)
        (trace with_reviews
           ++ [Console "Connecting to database...";
               Console ("MONGO_URL: " ++ MONGO_URL offline_env);
               Connect (MONGO_URL offline_env);
               ConsoleError "Error seeding database:" ServerSelection]
           ++ close_events offline_env)).
Proof. apply (seedDatabase_offline offline_env with_reviews). reflexivity. Defined.

(** X3: the drops are not undone.  When the server drops the first three
    collections and refuses the drop of users with an error other than
    code 26, the run ends with books, bookcategories and booktransactions
    gone, users and every other collection as they were, and nothing
    inserted. *)
Theorem seedDatabase_refused_users (env : Env) (s : State) (e : Error) :
  connect_fault env = None →
  drop_fault env "books" = None →
  drop_fault env "bookcategories" = None →
  drop_fault env "booktransactions" = None →
  drop_fault env "users" = Some e →
  code_differs e 26 = true →
  db (after (seedDatabase env) s)
  = delete "booktransactions" (delete "bookcategories" (delete "books" (db s)))
  ∧ events (seedDatabase env) s
    = (connect_events env
         ++ [Console "Dropping existing collections...";
             DropCollection "books"; DropCollection "bookcategories";
             DropCollection "booktransactions"; DropCollection "users";
             ConsoleError "Error seeding database:" e]
         ++ close_events env)%list.
Proof.
  intros Hc Hb Hcat Ht Hu He.
  assert (seedDatabase env s
          = (settled env,
             mk (delete "booktransactions"
                   (delete "bookcategories" (delete "books" (db s))))
                (next_id s) (salts s)
                (trace s ++ connect_events env
                   ++ [Console "Dropping existing collections...";
                       DropCollection "books"; DropCollection "bookcategories";
                       DropCollection "booktransactions"; DropCollection "users";
                       ConsoleError "Error seeding database:" e]
                   ++ close_events env))) as Hrun.
  { assert (∀ s1, dropping env s1
                  = (Throw e,
                     mk (delete "booktransactions"
                           (delete "bookcategories" (delete "books" (db s1))))
                        (next_id s1) (salts s1)
                        (trace s1
                           ++ [Console "Dropping existing collections...";
                               DropCollection "books";
                               DropCollection "bookcategories";
                               DropCollection "booktransactions";
                               DropCollection "users"]))) as Hdrop.
    { intros s1. unfold dropping, console_log.
      rewrite (then_eq _ _ _ _ (emit_eq _ _)).
      rewrite (then_eq _ _ _ _ (drop_unless_missing _ _ _ Hb)).
      rewrite (then_eq _ _ _ _ (drop_unless_missing _ _ _ Hcat)).
      rewrite (then_eq _ _ _ _ (drop_unless_missing _ _ _ Ht)).
      rewrite (bind_Throw _ _ _ _ _ (drop_refused _ _ _ _ Hu He)). simpl.
      by rewrite <- !(assoc_L (++)). }
    rewrite (seedDatabase_thrown env s
               (mk (delete "booktransactions"
                      (delete "bookcategories" (delete "books" (db s))))
                   (next_id s) (salts s)
                   ((trace s ++ connect_events env)
                      ++ [Console "Dropping existing collections...";
                          DropCollection "books";
                          DropCollection "bookcategories";
                          DropCollection "booktransactions";
                          DropCollection "users"])) e).
    - simpl. by rewrite <- !(assoc_L (++)).
    - unfold seeding.
      rewrite (then_eq _ _ _ _ (connecting_ok _ _ Hc)).
      by rewrite (bind_Throw _ _ _ _ _ (Hdrop _)). }
  split.
  - unfold after. by rewrite Hrun.
  - apply events_eq. by rewrite Hrun.
Qed.

Lemma seedDatabase_refused_users_witness :
  db (after (seedDatabase refusing_env) plain_run)
  = delete "booktransactions"
      (delete "bookcategories" (delete "books" (db plain_run)))
  ∧ events (seedDatabase refusing_env) plain_run
    = (connect_events refusing_env
         ++ [Console "Dropping existing collections...";
             DropCollection "books"; DropCollection "bookcategories";
             DropCollection "booktransactions"; DropCollection "users";
             ConsoleError "Error seeding database:" Unauthorized]
         ++ close_events refusing_env)%list.
Proof.
  apply (seedDatabase_refused_users refusing_env plain_run Unauthorized);
    reflexivity.
Defined.

Lemma seeded_db_other (env : Env) (n k : nat) (c : string) :
  c ∉ ["books"; "bookcategories"; "booktransactions"; "users"] →
  seeded_db env n k !! c = None.
Proof.
  intros Hc. unfold seeded_db.
  rewrite !lookup_insert_ne, lookup_empty; [done|..];
    intros <-; apply Hc; repeat constructor.
Qed.

Lemma dropped_other (d : gmap string (list obj)) (c : string) :
  c ∉ ["books"; "bookcategories"; "booktransactions"; "users"] →
  dropped d !! c = d !! c.
Proof.
  intros Hc. unfold dropped.
  rewrite !lookup_delete_ne; [done|..]; intros <-; apply Hc; repeat constructor.
Qed.

(** X4: a run on a well-behaved server leaves every collection other than
    the four as it was. *)
Theorem seedDatabase_other_collections (env : Env) (s : State) (c : string) :
  well_behaved env →
  c ∉ ["books"; "bookcategories"; "booktransactions"; "users"] →
  db (after (seedDatabase env) s) !! c = db s !! c.
Proof.
  intros Henv Hc. rewrite after_seedDatabase by done. simpl.
  rewrite lookup_union_r by by apply seeded_db_other.
  by apply dropped_other.
Qed.

Lemma seedDatabase_other_collections_witness :
  db (after (seedDatabase plain_env) with_reviews) !! "reviews"
  = db with_reviews !! "reviews".
Proof.
  apply (seedDatabase_other_collections plain_env with_reviews "reviews").
  - by repeat split.
  - intros Hin. repeat (apply elem_of_cons in Hin as [Hin|Hin]; [discriminate Hin|]).
    by apply elem_of_nil in Hin.
Defined.

(** X5: the script can be run again and again: after any number of runs on
    a well-behaved server, one at least, the four collections hold eight
    categories, three users, five books and three transactions, whatever
    the database held at first. *)
Theorem seedDatabase_rerun (env : Env) (s : State) (runs : nat) :
  well_behaved env →
  List.length (documents "bookcategories"
                 (Nat.iter (S runs) (after (seedDatabase env)) s)) = 8
  ∧ List.length (documents "users"
                   (Nat.iter (S runs) (after (seedDatabase env)) s)) = 3
  ∧ List.length (documents "books"
                   (Nat.iter (S runs) (after (seedDatabase env)) s)) = 5
  ∧ List.length (documents "booktransactions"
                   (Nat.iter (S runs) (after (seedDatabase env)) s)) = 3.
Proof.
  intros Henv. simpl.
  rewrite final_categories, final_users, final_books, final_transactions by done.
  apply seeded_sizes.
Qed.

Lemma seedDatabase_rerun_witness :
  List.length (documents "bookcategories"
                 (Nat.iter 3 (after (seedDatabase plain_env)) shelf)) = 8
  ∧ List.length (documents "users"
                   (Nat.iter 3 (after (seedDatabase plain_env)) shelf)) = 3
  ∧ List.length (documents "books"
                   (Nat.iter 3 (after (seedDatabase plain_env)) shelf)) = 5
  ∧ List.length (documents "booktransactions"
                   (Nat.iter 3 (after (seedDatabase plain_env)) shelf)) = 3.
Proof. apply (seedDatabase_rerun plain_env shelf 2). by repeat split. Defined.

(** ** The maps from names to ids *)






(** ** Hashing a user's password *)

Lemma field_insert_ne (o : obj) (k f : string) (v : value) :
  f ≠ k → field (<[k := v]> o) f = field o f.
Proof. intros Hf. unfold field. by rewrite lookup_insert_ne. Qed.

(** Changing one key of an object changes nothing under the other paths of
    the document built from it. *)
Lemma build_insert_other (sch : Schema) (o : obj) (k f : string) (v : value) :
  f ≠ k → build sch (<[k := v]> o) !! f = build sch o !! f.
Proof.
  intros Hf. induction sch as [|[k' p] sch IH]; simpl; [done|].
  destruct (decide (k' = f)) as [->|Hk'].
  - rewrite field_insert_ne by done.
    destruct (match field o f with Some x => Some x | None => initial p end);
      [by rewrite !lookup_insert_eq|done].
  - destruct (match field (<[k := v]> o) k' with
              | Some x => Some x | None => initial p end),
             (match field o k' with Some x => Some x | None => initial p end);
      rewrite ?lookup_insert_ne by done; done.
Qed.

Lemma hashPassword_eq (env : Env) (password : value) (s : State) :
  hashPassword env password s
  = (match password with
     | VStr p => Return (VStr (bcrypt_hash env p (bcrypt_genSalt env 10 (salts s))))
     | _ => Throw BcryptArguments
     end,
     mk (db s) (next_id s) (S (salts s)) (trace s ++ [GenSalt 10])).
Proof. by destruct password. Qed.

(** X8: for a user record with a string password and no [_id] of its own,
    the body of the loop draws one salt with 10 rounds and one ObjectId, and
    makes a document whose password is the bcrypt hash of the record's
    password under that salt and whose other paths are those of the
    document built from the record as it is: hashing replaces the password
    and nothing else, and the database is not touched. *)
Theorem newUser_hashes (env : Env) (userData : obj) (p : string) (s : State) :
  get userData "password" = VStr p →
  field userData "_id" = None →
  ∃ d, newUser env userData s
       = (Return d,
          mk (db s) (S (next_id s)) (S (salts s)) (trace s ++ [GenSalt 10]))
       ∧ d !! "password"
         = Some (VStr (bcrypt_hash env p (bcrypt_genSalt env 10 (salts s))))
       ∧ d !! "_id" = Some (VId (next_id s))
       ∧ ∀ f, f ≠ "password" → f ≠ "_id" →
              d !! f = build UserSchema userData !! f.
Proof.
  intros Hp Hid.
  exists (<["_id" := VId (next_id s)]>
            (build UserSchema
               (<["password" :=
                    VStr (bcrypt_hash env p (bcrypt_genSalt env 10 (salts s)))]>
                  userData))).
  split; [|split; [|split]].
  - unfold newUser.
    pose proof (hashPassword_eq env (get userData "password") s) as Hh.
    rewrite Hp in Hh |- *.
    rewrite (bind_Return _ _ _ _ _ Hh).
    rewrite new_document_eq, field_insert_ne by done. by rewrite Hid.
  - rewrite lookup_insert_ne by done.
    rewrite (build_lookup UserSchema _ "password" (minv 6 (req (path TString))));
      [|apply schemas_NoDup|unfold UserSchema; repeat constructor].
    unfold field. by rewrite lookup_insert_eq.
  - by rewrite lookup_insert_eq.
  - intros f Hf Hf'. rewrite lookup_insert_ne by done.
    by apply build_insert_other.
Qed.

Lemma newUser_hashes_witness :
  ∃ d, newUser plain_env (usersData !!! 1) empty_state
       = (Return d, mk ∅ 1 1 [GenSalt 10])
       ∧ d !! "password"
         = Some (VStr (bcrypt_hash plain_env "password456"
                         (bcrypt_genSalt plain_env 10 0)))
       ∧ d !! "_id" = Some (VId 0)
       ∧ ∀ f, f ≠ "password" → f ≠ "_id" →
              d !! f = build UserSchema (usersData !!! 1) !! f.
Proof.
  apply (newUser_hashes plain_env (usersData !!! 1) "password456" empty_state);
    reflexivity.
Defined.

Lemma newUser_cases (env : Env) (u : obj) (s : State) :
  (∃ d s', newUser env u s = (Return d, s') ∧ db s' = db s
           ∧ ∃ p, get u "password" = VStr p)
  ∨ (∃ s', newUser env u s = (Throw BcryptArguments, s') ∧ db s' = db s
           ∧ ∀ p, get u "password" ≠ VStr p).
Proof.
  unfold newUser.
  pose proof (hashPassword_eq env (get u "password") s) as Hh.
  destruct (get u "password") as [|p| | | |] eqn:Hp;
    try (right; eexists; rewrite (bind_Throw _ _ _ _ _ Hh);
         split; [done|]; split; [done|]; by intros p').
  left. rewrite (bind_Return _ _ _ _ _ Hh), new_document_eq.
  destruct (field _ "_id"); eexists _, _; (split; [done|]);
    split; try done; by exists p.
Qed.

(** X9: the loop over the user records stops at the first record whose
    password is not a string, with the error of bcrypt, and the database is
    then as it was before the loop: the user documents made so far exist in
    the array only. *)
Theorem users_loop_aborts (env : Env) (l : list obj) (s : State) :
  (∃ u, u ∈ l ∧ ∀ p, get u "password" ≠ VStr p) →
  ∃ s', mapM (newUser env) l s = (Throw BcryptArguments, s') ∧ db s' = db s.
Proof.
  intros (u & Hu & Hp). revert s.
  induction l as [|u0 l IH]; intros s; [by apply elem_of_nil in Hu|]. simpl.
  destruct (newUser_cases env u0 s)
    as [(d & s1 & Hrun & Hdb & p0 & Hp0)|(s1 & Hrun & Hdb & _)].
  - apply elem_of_cons in Hu as [Heq|Hu].
    { subst u0. by destruct (Hp p0). }
    destruct (IH Hu s1) as (s' & Hrest & Hdb').
    exists s'. rewrite (bind_Return _ _ _ _ _ Hrun).
    rewrite (bind_Throw _ _ _ _ _ Hrest). split; [done|congruence].
  - exists s1. by rewrite (bind_Throw _ _ _ _ _ Hrun).
Qed.

Lemma users_loop_aborts_witness :
  ∃ s', mapM (newUser plain_env) [usersData !!! 0; no_password; usersData !!! 2]
          plain_run
        = (Throw BcryptArguments, s')
        ∧ db s' = db plain_run.
Proof.
  apply (users_loop_aborts plain_env). exists no_password. split.
  - apply elem_of_cons. right. apply elem_of_cons. by left.
  - intros p. vm_compute. discriminate.
Defined.




(** ** References between the collections *)

Lemma seeded_references (n : nat) :
  ((fun b => b !! "categories") <$> seeded_books n)
  = [ Some (VArr [get (seeded_categories n !!! 0) "_id"]);
      Some (VArr [get (seeded_categories n !!! 1) "_id"]);
      Some (VArr [get (seeded_categories n !!! 2) "_id";
                  get (seeded_categories n !!! 3) "_id"]);
      Some (VArr [get (seeded_categories n !!! 4) "_id";
                  get (seeded_categories n !!! 6) "_id"]);
      Some (VArr [get (seeded_categories n !!! 5) "_id";
                  get (seeded_categories n !!! 7) "_id"]) ]
  ∧ ((fun c => (c !! "categoryName", c !! "books")) <$> seeded_categories n)
    = [ (Some (VStr "Fiction"), Some (VArr []));
        (Some (VStr "Science Fiction"), Some (VArr []));
        (Some (VStr "Mystery"), Some (VArr []));
        (Some (VStr "Thriller"), Some (VArr []));
        (Some (VStr "Non-Fiction"), Some (VArr []));
        (Some (VStr "Biography"), Some (VArr []));
        (Some (VStr "History"), Some (VArr []));
        (Some (VStr "Technology"), Some (VArr [])) ].
Proof.
  vm_cast_no_check
    (conj (eq_refl ((fun b => b !! "categories") <$> seeded_books n))
          (eq_refl ((fun c => (c !! "categoryName", c !! "books")) <$>
                      seeded_categories n))).
Qed.

Lemma seeded_categories_ids (n : nat) :
  ((fun c => c !! "_id") <$> seeded_categories n)
  = ((fun c => Some (get c "_id")) <$> seeded_categories n).
Proof.
  vm_cast_no_check (eq_refl ((fun c => c !! "_id") <$> seeded_categories n)).
Qed.

Lemma seeded_category (n i : nat) :
  i < 8 →
  seeded_categories n !!! i ∈ seeded_categories n
  ∧ (seeded_categories n !!! i) !! "_id"
    = Some (get (seeded_categories n !!! i) "_id").
Proof.
  intros Hi. destruct (seeded_sizes plain_env n 0) as (Hlen & _).
  split; [apply list_elem_of_lookup_total_2; by rewrite Hlen|].
  pose proof (f_equal (fun l => l !! i) (seeded_categories_ids n)) as Hid.
  cbv beta in Hid. rewrite !list_lookup_fmap in Hid.
  rewrite (list_lookup_lookup_total_lt (seeded_categories n) i) in Hid
    by by rewrite Hlen.
  by injection Hid.
Qed.

(** X11: after a run on a well-behaved server every book has a list of
    categories that is not empty, and every reference in it is the [_id] of
    a stored category, so no lookup in [categoryMap] has missed; the link is
    kept on the side of the books only: the list of books of every category
    is empty. *)
Theorem seeded_category_references (env : Env) (s : State) :
  well_behaved env →
  (∀ b, b ∈ documents "books" (after (seedDatabase env) s) →
        ∃ ids, b !! "categories" = Some (VArr ids) ∧ ids ≠ []
               ∧ ∀ i, i ∈ ids →
                      ∃ c, c ∈ documents "bookcategories"
                                 (after (seedDatabase env) s)
                           ∧ c !! "_id" = Some i)
  ∧ (∀ c, c ∈ documents "bookcategories" (after (seedDatabase env) s) →
          c !! "books" = Some (VArr [])).
Proof.
  intros Henv. rewrite final_books, final_categories by done.
  destruct (seeded_references (next_id s)) as [Hrefs Hcats].
  split.
  - intros b Hb.
    apply (list_elem_of_fmap_2 (fun b => b !! "categories")) in Hb.
    rewrite Hrefs in Hb.
    repeat (apply elem_of_cons in Hb as [Hb|Hb]);
      lazymatch type of Hb with
      | _ ∈ [] => by apply elem_of_nil in Hb
      | _ => eexists; split; [exact Hb|]; split; [discriminate|];
             intros i Hi;
             repeat (apply elem_of_cons in Hi as [->|Hi]);
             lazymatch goal with
             | H : _ ∈ [] |- _ => by apply elem_of_nil in H
             | |- _ => eexists; apply seeded_category; lia
             end
      end.
  - intros c Hc.
    apply (list_elem_of_fmap_2 (fun c => (c !! "categoryName", c !! "books")))
      in Hc.
    rewrite Hcats in Hc.
    repeat (apply elem_of_cons in Hc as [[= _ Hc]|Hc]); [exact Hc..|].
    by apply elem_of_nil in Hc.
Qed.

Lemma seeded_category_references_witness :
  (∀ b, b ∈ documents "books" plain_run →
        ∃ ids, b !! "categories" = Some (VArr ids) ∧ ids ≠ []
               ∧ ∀ i, i ∈ ids →
                      ∃ c, c ∈ documents "bookcategories" plain_run
                           ∧ c !! "_id" = Some i)
  ∧ (∀ c, c ∈ documents "bookcategories" plain_run →
          c !! "books" = Some (VArr [])).
Proof.
  apply (seeded_category_references plain_env empty_state). by repeat split.
Defined.

(** ** What a run reports *)

Lemma no_report_app (l l' : list Event) :
  no_report l → no_report l' → no_report (l ++ l').
Proof. unfold no_report. rewrite forallb_app. by intros -> ->. Qed.

Lemma no_report_elem (l : list Event) (e : Event) :
  no_report l → e ∈ l → is_report e = false.
Proof.
  intros Hl He. apply negb_true_iff.
  by apply (forallb_elem (fun e => negb (is_report e)) l).
Qed.

Lemma unreported_ret {A} (a : A) : unreported (mret a).
Proof. intros s. exists []. simpl. by rewrite (right_id_L [] (++)). Qed.

Lemma unreported_throw {A} (e : Error) : unreported (@throw A e).
Proof. intros s. exists []. simpl. by rewrite (right_id_L [] (++)). Qed.

Lemma unreported_emit (e : Event) : is_report e = false → unreported (emit e).
Proof. intros He s. exists [e]. split; [done|]. unfold no_report. simpl. by rewrite He. Qed.

Lemma unreported_bind {A B} (m : Async A) (f : A → Async B) :
  unreported m → (∀ a, unreported (f a)) → unreported (m ≫= f).
Proof.
  intros Hm Hf s. destruct (Hm s) as (l & Hl & Hq). unfold mbind, async_bind.
  destruct (m s) as [[a|e] s1]; simpl in *; [|by exists l].
  destruct (Hf a s1) as (l' & Hl' & Hq'). exists (l ++ l')%list.
  split; [by rewrite Hl', Hl, (assoc_L (++))|by apply no_report_app].
Qed.

Lemma unreported_mapM {A B} (f : A → Async B) (l : list A) :
  (∀ a, unreported (f a)) → unreported (mapM f l).
Proof.
  intros Hf. induction l as [|a l IH]; simpl; [apply unreported_ret|].
  apply unreported_bind; [apply Hf|intros b].
  apply unreported_bind; [apply IH|intros k; apply unreported_ret].
Qed.

(** A computation that leaves the trace alone. *)
Lemma unreported_still {A} (m : Async A) :
  (∀ s, trace (m s).2 = trace s) → unreported m.
Proof. intros Hm s. exists []. by rewrite Hm, (right_id_L [] (++)). Qed.

Lemma unreported_new_document (m : Model) (o : obj) : unreported (new_document m o).
Proof.
  apply unreported_still. intros s. rewrite new_document_eq.
  by destruct (field o "_id").
Qed.

Lemma unreported_write_ordered (env : Env) (m : Model) (docs : list obj) :
  unreported (write_ordered env m docs).
Proof.
  apply unreported_still. induction docs as [|d docs IH]; intros s; simpl; [done|].
  destruct (conflicts _ _ _ d); [done|]. by rewrite IH.
Qed.

Lemma unreported_insertMany (env : Env) (m : Model) (objs : list obj) :
  unreported (insertMany env m objs).
Proof.
  unfold insertMany.
  apply unreported_bind; [by apply unreported_emit|intros _].
  apply unreported_bind; [apply unreported_mapM, unreported_new_document|intros docs].
  destruct (forallb _ docs); [|apply unreported_throw].
  apply unreported_bind; [apply unreported_write_ordered|intros; apply unreported_ret].
Qed.

Lemma unreported_newUser (env : Env) (u : obj) : unreported (newUser env u).
Proof.
  unfold newUser, hashPassword, genSalt.
  apply unreported_bind; [|intros; apply unreported_new_document].
  apply unreported_bind.
  - apply unreported_bind; [by apply unreported_emit|intros _].
    by apply unreported_still.
  - intros salt. destruct (get u "password");
      first [apply unreported_throw | apply unreported_ret].
Qed.

Lemma unreported_tolerant_drop (env : Env) (c : string) :
  unreported (try_catch (dropCollection env c) unless_missing).
Proof.
  intros s. destruct (drop_step env c s) as [(e & -> & _)|(d' & _ & -> & _)];
    by exists [DropCollection c].
Qed.

Ltac unreported_steps :=
  repeat lazymatch goal with
    | |- unreported (mret _) => apply unreported_ret
    | |- unreported (throw _) => apply unreported_throw
    | |- unreported (emit _) => by apply unreported_emit
    | |- unreported (insertMany _ _ _) => apply unreported_insertMany
    | |- unreported (mapM _ _) =>
        apply unreported_mapM; intros; apply unreported_newUser
    | |- unreported (try_catch _ _) => apply unreported_tolerant_drop
    | |- unreported (match ?x with _ => _ end) => destruct x
    | |- unreported (_ ≫= _) => apply unreported_bind; [|intros]
    end.

Lemma reports_bind {A} (m : Async A) (f : A → Async unit) :
  unreported m → (∀ a, reports (f a)) → reports (m ≫= f).
Proof.
  intros Hm Hf s. destruct (Hm s) as (l & Hl & Hq). unfold mbind, async_bind.
  destruct (m s) as [[a|e] s1]; simpl in *.
  - destruct (Hf a s1) as (l' & Hq' & Hcase). exists (l ++ l')%list.
    split; [by apply no_report_app|].
    destruct Hcase as [[Hr Ht]|(e & Hr & Ht)]; [left|right; exists e];
      (split; [done|]); rewrite Ht, Hl; by rewrite <- !(assoc_L (++)).
  - exists l. split; [done|]. right. by exists e.
Qed.

Lemma reports_seeding (env : Env) : reports (seeding env).
Proof.
  unfold seeding, populating.
  apply reports_bind;
    [unfold connecting, connect, console_log; unreported_steps|intros _].
  apply reports_bind;
    [unfold dropping, console_log; unreported_steps|intros _].
  apply reports_bind;
    [unfold seedCategories, console_log; unreported_steps|intros categoryMap].
  apply reports_bind;
    [unfold seedUsers, console_log; unreported_steps|intros userMap].
  apply reports_bind;
    [unfold seedBooks, console_log; unreported_steps|intros bookMap].
  apply reports_bind;
    [unfold seedTransactions, console_log; unreported_steps|intros _].
  intros s. exists []. split; [done|]. left. by split.
Qed.

Lemma close_events_quiet (env : Env) (e : Event) :
  e ∈ close_events env → is_report e = false.
Proof.
  unfold close_events. intros Hin.
  destruct (close_fault env);
    repeat (apply elem_of_cons in Hin as [->|Hin]; [done|]);
    by apply elem_of_nil in Hin.
Qed.

(** X12: every run makes exactly one of its two reports: either it logs
    "Database seeding complete." and no error, the [try] block having
    returned, or it logs one error and not that line, the block having
    thrown that error. *)
Theorem seedDatabase_reports_once (env : Env) (s : State) :
  ((seeding env s).1 = Return tt
   ∧ Console "Database seeding complete." ∈ events (seedDatabase env) s
   ∧ ∀ e, ConsoleError "Error seeding database:" e ∉ events (seedDatabase env) s)
  ∨ (∃ e, (seeding env s).1 = Throw e
          ∧ (Console "Database seeding complete." ∉ events (seedDatabase env) s)
          ∧ ∀ e', ConsoleError "Error seeding database:" e'
                  ∈ events (seedDatabase env) s ↔ e' = e).
Proof.
  destruct (reports_seeding env s) as (l & Hq & [[Hr Ht]|(e & Hr & Ht)]).
  - left. split; [done|].
    destruct (seeding env s) as [[[]|e0] s1] eqn:Hseed; [|done]. simpl in Ht.
    assert (trace (seedDatabase env s).2
            = (trace s ++ (l ++ [Console "Database seeding complete."])
                 ++ close_events env)%list) as Hrun.
    { rewrite (seedDatabase_returned env s s1 Hseed). simpl.
      by rewrite Ht, <- !(assoc_L (++)). }
    rewrite (events_eq _ _ _ Hrun). split.
    + apply elem_of_app. left. apply elem_of_app. right. by left.
    + intros e [[Hin|Hin]%elem_of_app|Hin]%elem_of_app.
      * by pose proof (no_report_elem _ _ Hq Hin).
      * by apply list_elem_of_singleton in Hin.
      * by pose proof (close_events_quiet env _ Hin).
  - right. exists e. split; [done|].
    destruct (seeding env s) as [[[]|e0] s1] eqn:Hseed; [done|].
    simpl in Ht, Hr. injection Hr as ->.
    assert (trace (seedDatabase env s).2
            = (trace s ++ (l ++ [ConsoleError "Error seeding database:" e])
                 ++ close_events env)%list) as Hrun.
    { rewrite (seedDatabase_thrown env s s1 e Hseed). simpl.
      by rewrite Ht, <- !(assoc_L (++)). }
    rewrite (events_eq _ _ _ Hrun). split.
    + intros [[Hin|Hin]%elem_of_app|Hin]%elem_of_app.
      * by pose proof (no_report_elem _ _ Hq Hin).
      * by apply list_elem_of_singleton in Hin.
      * by pose proof (close_events_quiet env _ Hin).
    + intros e'. split.
      * intros [[Hin|Hin]%elem_of_app|Hin]%elem_of_app.
        { by pose proof (no_report_elem _ _ Hq Hin). }
        { apply list_elem_of_singleton in Hin. by injection Hin. }
        { by pose proof (close_events_quiet env _ Hin). }
      * intros ->. apply elem_of_app. left. apply elem_of_app. right. by left.
Qed.

(** ** Unique paths with their index *)

(** X13: whenever the server has the unique index of a unique path of the
    model's collection, the documents of a call pass the schema and one of
    them has, under that path, the key of a stored document or of an earlier
    document of the call, [insertMany] fails with the duplicate-key error
    (code 11000) and writes neither that document nor any after it.  The
    unique paths are the user's full name and email and the category's
    name. *)
Theorem duplicate_key_rejected (env : Env) (m : Model) (l : list obj)
    (s : State) (i : nat) (d d' : obj) (k : string) :
  unique_index env (collection m) k = true →
  forallb (valid (schema m)) (built m (next_id s) l) = true →
  built m (next_id s) l !! i = Some d →
  k ∈ unique_paths (schema m) →
  d' ∈ (documents (collection m) s ++ take i (built m (next_id s) l))%list →
  d' !! k = d !! k →
  (insertMany env m l s).1 = Throw DuplicateKey
  ∧ ecode DuplicateKey = Some 11000%Z
  ∧ (∃ j, (j ≤ i)%nat
       ∧ documents (collection m) (after (insertMany env m l) s)
         = (documents (collection m) s ++ take j (built m (next_id s) l))%list)
  ∧ unique_paths UserSchema = ["userFullName"; "email"]
  ∧ unique_paths BookCategorySchema = ["categoryName"].
Proof.
  intros Hindex Hvalid Hd Hk Hd' Heq.
  destruct (write_ordered_duplicate env m (built m (next_id s) l)
              (mk (db s) (drawn l + next_id s) (salts s)
                  (trace s ++ [InsertMany (collection m) (List.length l)]))
              i d d' k Hindex Hd Hk Hd' Heq) as (j & s' & Hj & Hw & Hdocs).
  assert (insertMany env m l s = (Throw DuplicateKey, s')) as Hrun.
  { rewrite insertMany_steps, Hvalid. by rewrite (bind_Throw _ _ _ _ _ Hw). }
  unfold after. rewrite Hrun. simpl.
  split; [done|]. split; [done|]. split; [by exists j|]. done.
Qed.

Lemma duplicate_key_rejected_witness :
  (insertMany plain_env BookCategory [duplicate_category] plain_run).1
  = Throw DuplicateKey
  ∧ ecode DuplicateKey = Some 11000%Z
  ∧ (∃ j, (j ≤ 0)%nat
       ∧ documents "bookcategories"
           (after (insertMany plain_env BookCategory [duplicate_category]) plain_run)
         = (documents "bookcategories" plain_run
              ++ take j (built BookCategory (next_id plain_run)
                           [duplicate_category]))%list)
  ∧ unique_paths UserSchema = ["userFullName"; "email"]
  ∧ unique_paths BookCategorySchema = ["categoryName"].
Proof.
  apply (duplicate_key_rejected plain_env BookCategory [duplicate_category]
           plain_run 0
           (<["_id" := VId (next_id plain_run)]>
              (build BookCategorySchema duplicate_category))
           (documents "bookcategories" plain_run !!! 0) "categoryName").
  - reflexivity.
  - vm_compute. reflexivity.
  - reflexivity.
  - repeat constructor.
  - apply elem_of_app. left.
    apply (list_elem_of_lookup_total_2 (documents "bookcategories" plain_run) 0).
    destruct plain_run_sizes as (Hlen & _). rewrite Hlen. lia.
  - vm_cast_no_check (eq_refl (Some (VStr "Fiction"))).
Defined.
